(** * Verification of the Zulu morphological analyzer (src/server.js)

    Shallow embedding of the class [ZuluMorphAnalyzer]: its rule tables
    (JavaScript object literals), [analyzeWord], [getNounBasicPrefix],
    [formatMorphAnalysis] and [analyzeText]; then the rest of the server:
    [TextExtractor.extractFromFile] (with Node's [path.extname]), the
    handlers of [/api/process-text], [/api/process-files] and
    [/api/process-batch], and the export helpers [convertToCSV] and
    [convertToText].

    Modelling conventions.
    - A JavaScript string is a Rocq [string]; a character is an [ascii]
      read as a Latin-1 code unit (0..255).
    - A JavaScript object is an ordered property list.  An object literal
      is built by defining its properties one after the other: a key that
      is already present keeps its position and gets the new value (this is
      how a duplicated key in a literal behaves), a new key is appended.
      [for (k in o)] visits the keys in that order (none of the string keys
      of the tables is an array index, so insertion order is the iteration
      order).
    - Reading [o[k]] for a key that is not an own property falls through to
      [Object.prototype]; the values found there are modelled by [ProtoVal].
    - The [while] loop of [analyzeWord] runs with a fuel bound; [None]
      means that the bound was exhausted.
    - The libraries the server calls to read uploads (UTF-8 decoding,
      pdf-parse, mammoth, [JSON.parse]) are parameters; a thrown error is
      an [Err] with its message. Timestamps are not modelled. *)

From Stdlib Require Import String Ascii List Bool Arith Lia.
From Stdlib Require Import DecimalString ZArith.
Import ListNotations.
Open Scope string_scope.

(** ** JavaScript primitives *)

Definition nat_to_string (n : nat) : string :=
  NilEmpty.string_of_uint (Nat.to_uint n).

(** [String.prototype.toLowerCase] on Latin-1 code units. *)
Definition lower_char (c : ascii) : ascii :=
  let n := nat_of_ascii c in
  if (Nat.leb 65 n && Nat.leb n 90) || (Nat.leb 192 n && Nat.leb n 222 && negb (Nat.eqb n 215))
  then ascii_of_nat (n + 32) else c.

Fixpoint toLowerCase (s : string) : string :=
  match s with
  | EmptyString => EmptyString
  | String c r => String (lower_char c) (toLowerCase r)
  end.

(** [s.startsWith(p)] *)
Definition startsWith (s p : string) : bool := String.prefix p s.

(** [s.indexOf(p)], [None] standing for [-1]. *)
Fixpoint indexOf_from (p s : string) (i : nat) : option nat :=
  if String.prefix p s then Some i
  else match s with
       | EmptyString => None
       | String _ r => indexOf_from p r (S i)
       end.

Definition indexOf (s p : string) : option nat := indexOf_from p s 0.

(** [s.includes(p)] *)
Definition includes (s p : string) : bool :=
  match indexOf s p with Some _ => true | None => false end.

(** [s.substring(i)] for [0 <= i]. *)
Fixpoint substring_from (i : nat) (s : string) : string :=
  match i, s with
  | O, _ => s
  | S _, EmptyString => EmptyString
  | S j, String _ r => substring_from j r
  end.

(** [s.substring(0, i)] *)
Fixpoint substring_to (i : nat) (s : string) : string :=
  match i, s with
  | O, _ => EmptyString
  | S _, EmptyString => EmptyString
  | S j, String c r => String c (substring_to j r)
  end.

(** [s.endsWith(t)] for a one-character [t]. *)
Fixpoint endsWith_char (s : string) (c : ascii) : bool :=
  match s with
  | EmptyString => false
  | String d EmptyString => Ascii.eqb c d
  | String _ r => endsWith_char r c
  end.

(** [a.join(sep)] *)
Fixpoint join (sep : string) (l : list string) : string :=
  match l with
  | [] => EmptyString
  | [x] => x
  | x :: r => x ++ sep ++ join sep r
  end.

(** ** JavaScript objects as ordered property lists *)

Definition jsobj (V : Type) := list (string * V).

Fixpoint obj_set {V} (o : jsobj V) (k : string) (v : V) : jsobj V :=
  match o with
  | [] => [(k, v)]
  | (k', v') :: r => if String.eqb k k' then (k, v) :: r else (k', v') :: obj_set r k v
  end.

(** An object literal [{ k1: v1, k2: v2, ... }]. *)
Definition obj_literal {V} (decls : list (string * V)) : jsobj V :=
  fold_left (fun o kv => obj_set o (fst kv) (snd kv)) decls [].

Fixpoint obj_get {V} (o : jsobj V) (k : string) : option V :=
  match o with
  | [] => None
  | (k', v) :: r => if String.eqb k k' then Some v else obj_get r k
  end.

(** Property names of [Object.prototype]. *)
Definition object_prototype_props : list string :=
  ["constructor"; "__proto__"; "hasOwnProperty"; "isPrototypeOf";
   "propertyIsEnumerable"; "toLocaleString"; "toString"; "valueOf";
   "__defineGetter__"; "__defineSetter__"; "__lookupGetter__"; "__lookupSetter__"].

(** A morpheme's tag: a string, or a value read from [Object.prototype]
    (a function or the prototype object itself, never a string). *)
Inductive tag :=
| Tag (s : string)
| ProtoVal (name : string).

(** Truthiness of a value read as a tag. *)
Definition truthy (t : tag) : bool :=
  match t with
  | Tag s => negb (String.eqb s "")
  | ProtoVal _ => true
  end.

(** [String(v)] for a tag, used by the template literal of the formatter. *)
Definition tag_to_string (t : tag) : string :=
  match t with
  | Tag s => s
  | ProtoVal n =>
      if String.eqb n "__proto__" then "[object Object]"
      else if String.eqb n "constructor" then "function Object() { [native code] }"
      else "function " ++ n ++ "() { [native code] }"
  end.

(** [o[k]] on an object whose own values are strings. *)
Definition obj_read (o : jsobj string) (k : string) : option tag :=
  match obj_get o k with
  | Some v => Some (Tag v)
  | None => if existsb (String.eqb k) object_prototype_props then Some (ProtoVal k) else None
  end.

(** ** Rule tables *)

Record Morpheme := mkMorpheme { morph : string; mtag : tag }.

Record NounInfo := mkNounInfo { nclass : nat; ntype : string }.

Record Analyzer := mkAnalyzer {
  nounPrefixes : jsobj NounInfo;
  verbExtensions : jsobj string;
  commonMorphemes : jsobj string;
  quantifiers : jsobj string;
  vocabulary : jsobj string
}.

(** [initializeMorphPatterns]: the declarations as written. *)
Definition nounPrefixes_decl : list (string * NounInfo) :=
  [("umu", mkNounInfo 1 "NPrePre1"); ("aba", mkNounInfo 2 "NPrePre2");
   ("umu", mkNounInfo 3 "NPrePre3"); ("imi", mkNounInfo 4 "NPrePre4");
   ("ili", mkNounInfo 5 "NPrePre5"); ("ama", mkNounInfo 6 "NPrePre6");
   ("isi", mkNounInfo 7 "NPrePre7"); ("izi", mkNounInfo 8 "NPrePre8");
   ("in", mkNounInfo 9 "NPrePre9"); ("izin", mkNounInfo 10 "NPrePre10");
   ("ulu", mkNounInfo 11 "NPrePre11"); ("ubu", mkNounInfo 14 "NPrePre14");
   ("uku", mkNounInfo 15 "NPrePre15")].

Definition verbExtensions_decl : list (string * string) :=
  [("el", "ApplExt"); ("an", "RecExt"); ("akal", "NeutExt");
   ("is", "CausExt"); ("w", "PassExt")].

Definition commonMorphemes_decl : list (string * string) :=
  [("nga", "AdvPre"); ("ka", "AdvPre"); ("na", "AdvPre"); ("ku", "LocPre");
   ("e", "LocPre"); ("s", "PreLoc-s"); ("wa", "PossConc3"); ("ya", "PossConc4");
   ("za", "PossConc10"); ("kwa", "PossConc15"); ("ng", "CopPre");
   ("o", "RelConc3"); ("ezi", "RelConc10"); ("eli", "RelConc5");
   ("aba", "RelConc2")].

Definition quantifiers_decl : list (string * string) :=
  [("dwa", "QuantStem"); ("nye", "AdjStem"); ("bili", "AdjStem")].

(** [initializeVocabulary] *)
Definition vocabulary_decl : list (string * string) :=
  [("jongo", "NStem"); ("konzo", "NStem"); ("website", "Foreign");
   ("Ningizimu", "ProperName"); ("Afrika", "ProperName"); ("thol", "VRoot");
   ("thombo", "NStem"); ("azi", "NStem"); ("hulumeni", "NStem");
   ("phungul", "VRoot"); ("gebe", "NStem"); ("khona", "Adv");
   ("phakathi", "Adv"); ("ndla", "NStem"); ("notho", "NStem");
   ("khakha", "NStem"); ("qal", "VRoot")].

(** [new ZuluMorphAnalyzer()] *)
Definition zulu : Analyzer :=
  mkAnalyzer (obj_literal nounPrefixes_decl) (obj_literal verbExtensions_decl)
    (obj_literal commonMorphemes_decl) (obj_literal quantifiers_decl)
    (obj_literal vocabulary_decl).

(** [getNounBasicPrefix] *)
Definition basicPrefixes : list (nat * string) :=
  [(1, "mu"); (2, "ba"); (3, "mu"); (4, "mi"); (5, "li"); (6, "ma");
   (7, "si"); (8, "zi"); (9, "n"); (10, "zin"); (11, "lu"); (14, "bu"); (15, "ku")].

Fixpoint lookup_nat (l : list (nat * string)) (k : nat) : option string :=
  match l with
  | [] => None
  | (k', v) :: r => if Nat.eqb k k' then Some v else lookup_nat r k
  end.

Definition getNounBasicPrefix (nounClass : nat) : option string :=
  lookup_nat basicPrefixes nounClass.

(** ** [analyzeWord] *)

(** First property of [o], in iteration order, whose key starts [s]:
    [for (let k in o) { if (s.startsWith(k)) { ...; break; } }]. *)
Fixpoint find_prefix {V} (o : jsobj V) (s : string) : option (string * V) :=
  match o with
  | [] => None
  | (k, v) :: r => if startsWith s k then Some (k, v) else find_prefix r s
  end.

(** First property of [o] whose key equals [s] ([remaining === quant]). *)
Fixpoint find_equal {V} (o : jsobj V) (s : string) : option (string * V) :=
  match o with
  | [] => None
  | (k, v) :: r => if String.eqb s k then Some (k, v) else find_equal r s
  end.

(** Morphemes pushed for a matched noun prefix. *)
Definition noun_emit (prefix : string) (prefixInfo : NounInfo) : list Morpheme :=
  mkMorpheme (substring_to 1 prefix) (Tag (ntype prefixInfo)) ::
  (if Nat.ltb 1 (String.length prefix) then
     match getNounBasicPrefix (nclass prefixInfo) with
     | Some basicPrefix =>
         if truthy (Tag basicPrefix)
         then [mkMorpheme basicPrefix (Tag ("BPre" ++ nat_to_string (nclass prefixInfo)))]
         else []
     | None => []
     end
   else []).

(** The verb-extension loop: the first extension whose [indexOf] is
    positive, with that index. *)
Fixpoint find_extension (o : jsobj string) (remaining : string)
  : option (string * string * nat) :=
  match o with
  | [] => None
  | (ext, t) :: r =>
      if includes remaining ext then
        match indexOf remaining ext with
        | Some index =>
            if Nat.ltb 0 index then Some (ext, t, index) else find_extension r remaining
        | None => find_extension r remaining
        end
      else find_extension r remaining
  end.

(** The verb-termination check. *)
Definition verb_term (remaining : string) : option (list Morpheme) :=
  if endsWith_char remaining "a"%char && Nat.ltb 1 (String.length remaining) then
    let root := substring_to (String.length remaining - 1) remaining in
    if Nat.ltb 0 (String.length root)
    then Some [mkMorpheme root (Tag "VRoot"); mkMorpheme "a" (Tag "VerbTerm")]
    else None
  else None.

(** One iteration of the [while] body: [Next] for [continue] (or the end
    of the body) with the new [remaining], [Halt] for [break]. *)
Inductive outcome :=
| Next (emitted : list Morpheme) (rest : string)
| Halt (emitted : list Morpheme).

Definition step (az : Analyzer) (remaining : string) : outcome :=
  match find_prefix (nounPrefixes az) remaining with
  | Some (prefix, prefixInfo) =>
      Next (noun_emit prefix prefixInfo) (substring_from (String.length prefix) remaining)
  | None =>
  match find_prefix (commonMorphemes az) remaining with
  | Some (m, t) =>
      Next [mkMorpheme m (Tag t)] (substring_from (String.length m) remaining)
  | None =>
  match find_extension (verbExtensions az) remaining with
  | Some (ext, t, index) =>
      Next [mkMorpheme (substring_to index remaining) (Tag "VRoot"); mkMorpheme ext (Tag t)]
           (substring_from (index + String.length ext) remaining)
  | None =>
  match verb_term remaining with
  | Some ms => Next ms ""
  | None =>
  match find_equal (quantifiers az) remaining with
  | Some (q, t) => Next [mkMorpheme q (Tag t)] ""
  | None => Halt [mkMorpheme remaining (Tag "NStem")]
  end end end end end.

(** [while (remaining.length > 0) { ... }], at most [fuel] iterations. *)
Fixpoint run_loop (az : Analyzer) (fuel : nat) (remaining : string)
  (morphemes : list Morpheme) : option (list Morpheme) :=
  match remaining with
  | EmptyString => Some morphemes
  | String _ _ =>
      match fuel with
      | O => None
      | S fuel' =>
          match step az remaining with
          | Next ms rest => run_loop az fuel' rest (morphemes ++ ms)%list
          | Halt ms => Some (morphemes ++ ms)%list
          end
      end
  end.

(** [/^[.,!?;:]$/.test(word)] *)
Definition is_punct (word : string) : bool :=
  match word with
  | String c EmptyString => existsb (Ascii.eqb c) ["."; ","; "!"; "?"; ";"; ":"]%char
  | _ => false
  end.

(** [/^[A-Z]/.test(word)] *)
Definition starts_upper (word : string) : bool :=
  match word with
  | String c _ => Nat.leb 65 (nat_of_ascii c) && Nat.leb (nat_of_ascii c) 90
  | EmptyString => false
  end.

Definition proper_name_path (word : string) : option (list Morpheme) :=
  if starts_upper word && Nat.ltb 2 (String.length word)
  then Some [mkMorpheme word (Tag "ProperName")] else None.

(** The three checks before the loop: punctuation, vocabulary, proper name. *)
Definition fast_path (az : Analyzer) (word : string) : option (list Morpheme) :=
  let remaining := toLowerCase word in
  if is_punct word then Some [mkMorpheme word (Tag "Punc")] else
  match obj_read (vocabulary az) remaining with
  | Some v =>
      if truthy v then Some [mkMorpheme remaining v] else proper_name_path word
  | None => proper_name_path word
  end.

Definition analyzeWord_opt (az : Analyzer) (word : string) : option (list Morpheme) :=
  match fast_path az word with
  | Some ms => Some ms
  | None =>
      let remaining := toLowerCase word in
      match run_loop az (String.length remaining) remaining [] with
      | Some morphemes =>
          Some (match morphemes with
                | [] => [mkMorpheme word (Tag "Unknown")]
                | _ => morphemes
                end)
      | None => None
      end
  end.

(** [analyzeWord], the loop bound being shown sufficient below. *)
Definition analyzeWord (az : Analyzer) (word : string) : list Morpheme :=
  match analyzeWord_opt az word with Some ms => ms | None => [] end.

(** ** Formatting and [analyzeText] *)

Definition formatMorphAnalysis (word : string) (morphemes : list Morpheme) : string :=
  join "-" (map (fun m => morph m ++ "[" ++ tag_to_string (mtag m) ++ "]") morphemes).

(** White space of [String.prototype.trim] and of [\s], on Latin-1. *)
Definition is_ws (c : ascii) : bool :=
  let n := nat_of_ascii c in
  (Nat.leb 9 n && Nat.leb n 13) || Nat.eqb n 32 || Nat.eqb n 160.

Definition cons_hd (c : ascii) (l : list (list ascii)) : list (list ascii) :=
  match l with
  | [] => [[c]]
  | x :: r => (c :: x) :: r
  end.

(** [s.split(sep)] for a one-character separator, on code units. *)
Fixpoint split_at_each (p : ascii -> bool) (s : list ascii) : list (list ascii) :=
  match s with
  | [] => [[]]
  | c :: r => if p c then [] :: split_at_each p r else cons_hd c (split_at_each p r)
  end.

Definition newline : string := String "010"%char EmptyString.

Definition split_nl (text : string) : list string :=
  map string_of_list_ascii (split_at_each (Ascii.eqb "010"%char) (list_ascii_of_string text)).

Fixpoint ltrim (s : list ascii) : list ascii :=
  match s with
  | [] => []
  | c :: r => if is_ws c then ltrim r else s
  end.

Fixpoint rtrim (s : list ascii) : list ascii :=
  match s with
  | [] => []
  | c :: r =>
      match rtrim r with
      | [] => if is_ws c then [] else [c]
      | r' => c :: r'
      end
  end.

(** [s.trim()] *)
Definition trim (s : string) : string :=
  string_of_list_ascii (rtrim (ltrim (list_ascii_of_string s))).

(** [s.split(/\s+/)]: scanning left to right, a maximal run of white space
    is one separator. *)
Fixpoint split_ws_go (s cur : list ascii) (skipping : bool) : list (list ascii) :=
  match s with
  | [] => [cur]
  | c :: r =>
      if is_ws c then
        (if skipping then split_ws_go r cur true else cur :: split_ws_go r [] true)
      else split_ws_go r (cur ++ [c]) false
  end.

Definition split_ws (s : string) : list string :=
  map string_of_list_ascii (split_ws_go (list_ascii_of_string s) [] false).

(** [a.forEach((x, index) => ...)] collecting one result per element. *)
Fixpoint mapi_from {A B} (f : nat -> A -> B) (i : nat) (l : list A) : list B :=
  match l with
  | [] => []
  | x :: r => f i x :: mapi_from f (S i) r
  end.

Definition analyzeText (az : Analyzer) (text : string) : string :=
  let lines := filter (fun line => negb (String.eqb (trim line) "")) (split_nl text) in
  let results :=
    mapi_from (fun index line =>
      let lineNumber := index + 1 in
      let words := split_ws (trim line) in
      let analyzedWords :=
        map (fun word => formatMorphAnalysis word (analyzeWord az word)) words in
      "<LINE " ++ nat_to_string lineNumber ++ ">" ++ join " " analyzedWords) 0 lines in
  join newline results.

(** ** Specification-side readings *)

(** Section 4.3, rule 3, read as: the first pattern, in declared order,
    that occurs in [remaining] at SOME index greater than 0, with the first
    such index. *)
Definition index_after_start (p s : string) : option nat :=
  match s with
  | EmptyString => None
  | String _ r => indexOf_from p r 1
  end.

Fixpoint find_extension_spec (o : jsobj string) (remaining : string)
  : option (string * string * nat) :=
  match o with
  | [] => None
  | (ext, t) :: r =>
      match index_after_start ext remaining with
      | Some index => Some (ext, t, index)
      | None => find_extension_spec r remaining
      end
  end.

(** Sections 4.4 and 4.5: a kept line is one with a non-white-space
    character; its words are the maximal runs of non-white-space
    characters. *)
Definition blank (line : string) : bool := forallb is_ws (list_ascii_of_string line).

Definition nonnil (w : list ascii) : bool :=
  match w with [] => false | _ => true end.

Definition words_spec (line : string) : list string :=
  map string_of_list_ascii (filter nonnil (split_at_each is_ws (list_ascii_of_string line))).

Definition analyzeText_spec (az : Analyzer) (text : string) : string :=
  join newline
    (mapi_from (fun i line =>
        "<LINE " ++ nat_to_string (S i) ++ ">" ++
        join " " (map (fun w => formatMorphAnalysis w (analyzeWord az w)) (words_spec line)))
      0 (filter (fun line => negb (blank line)) (split_nl text))).

(** [analyzeWord] as a method call on the analyzer object: the result and
    the object's state after the call (the method assigns no field). *)
Definition analyzeWord_st (az : Analyzer) (word : string) : list Morpheme * Analyzer :=
  (analyzeWord az word, az).

Definition nonempty_keys {V} (o : jsobj V) : bool :=
  forallb (fun kv => negb (String.eqb (fst kv) "")) o.

Open Scope list_scope.

Definition app_hd (cur : list ascii) (l : list (list ascii)) : list (list ascii) :=
  match l with
  | [] => [cur]
  | x :: r => (cur ++ x) :: r
  end.

Fixpoint ends_nonws (s : list ascii) : bool :=
  match s with
  | [] => false
  | [c] => negb (is_ws c)
  | _ :: r => ends_nonws r
  end.

Definition declared_noun_classes : list nat := [1; 2; 3; 4; 5; 6; 7; 8; 9; 10; 11; 14; 15].

Open Scope string_scope.

(** ** [path.extname] (Node's POSIX implementation) *)

Record ext_state := mkES {
  startDot : option nat;      (* [-1] is [None] *)
  startPart : nat;
  endPos : option nat;        (* [end]; [-1] is [None] *)
  matchedSlash : bool;
  preDotState : Z
}.

(** The backward scan [for (let i = path.length - 1; i >= 0; --i)]: the
    argument lists [path[0..i]] in reverse order, so its head is at index
    [length r]. *)
Fixpoint extname_loop (rcs : list ascii) (st : ext_state) : ext_state :=
  match rcs with
  | [] => st
  | c :: r =>
      let i := List.length r in
      if Ascii.eqb c "/"%char then
        if negb (matchedSlash st)
        then mkES (startDot st) (i + 1) (endPos st) (matchedSlash st) (preDotState st)
        else extname_loop r st
      else
        let st1 :=
          match endPos st with
          | None => mkES (startDot st) (startPart st) (Some (i + 1)) false (preDotState st)
          | Some _ => st
          end in
        let st2 :=
          if Ascii.eqb c "."%char then
            match startDot st1 with
            | None => mkES (Some i) (startPart st1) (endPos st1) (matchedSlash st1) (preDotState st1)
            | Some _ =>
                if negb (Z.eqb (preDotState st1) 1)
                then mkES (startDot st1) (startPart st1) (endPos st1) (matchedSlash st1) 1%Z
                else st1
            end
          else
            match startDot st1 with
            | Some _ => mkES (startDot st1) (startPart st1) (endPos st1) (matchedSlash st1) (-1)%Z
            | None => st1
            end in
        extname_loop r st2
  end.

Definition extname (path : string) : string :=
  let st := extname_loop (rev (list_ascii_of_string path)) (mkES None 0 None true 0%Z) in
  match startDot st, endPos st with
  | Some sd, Some e =>
      if Z.eqb (preDotState st) 0 ||
         (Z.eqb (preDotState st) 1 && Nat.eqb sd (e - 1) && Nat.eqb sd (startPart st + 1))
      then ""
      else substring_to (e - sd) (substring_from sd path)
  | _, _ => ""
  end.

(** ** [TextExtractor.extractFromFile] and the request handlers

    The parsing libraries ([buffer.toString('utf-8')], [pdf-parse],
    [mammoth], [JSON.parse] followed by [JSON.stringify(_, null, 2)]) are
    parameters; a failing one yields [Err] with the thrown message.
    Timestamps ([new Date()]) are left out of the records. *)

Inductive result (A : Type) :=
| Ok (a : A)
| Err (msg : string).
Arguments Ok {A} a.
Arguments Err {A} msg.

Section Handlers.

Variable Buffer : Type.
Variable utf8_decode : Buffer -> string.
Variable pdf_text : Buffer -> result string.
Variable mammoth_text : Buffer -> result string.
Variable json_pretty : string -> result string.

Definition extractFromFile (buffer : Buffer) (filename mimetype : string) : result string :=
  let extension := toLowerCase (extname filename) in
  let attempt :=
    if String.eqb extension ".txt" then Ok (utf8_decode buffer)
    else if String.eqb extension ".pdf" then pdf_text buffer
    else if String.eqb extension ".doc" || String.eqb extension ".docx" then mammoth_text buffer
    else if String.eqb extension ".json" then json_pretty (utf8_decode buffer)
    else if String.eqb extension ".csv" then Ok (utf8_decode buffer)
    else Err ("Unsupported file type: " ++ extension) in
  match attempt with
  | Ok t => Ok t
  | Err m => Err ("Failed to extract text from " ++ filename ++ ": " ++ m)
  end.

Record UploadedFile := mkFile {
  originalname : string; fsize : nat; fmimetype : string; fbuffer : Buffer }.

Inductive FileResult :=
| Completed (filename : string) (size : nat) (type : string) (extracted_text : string)
    (morphological_analysis : string) (word_count : nat) (line_count : nat)
| Failed (filename : string) (size : nat) (type : string) (error : string).

Definition fr_status (r : FileResult) : string :=
  match r with Completed _ _ _ _ _ _ _ => "completed" | Failed _ _ _ _ => "failed" end.

Definition fr_filename (r : FileResult) : string :=
  match r with Completed f _ _ _ _ _ _ => f | Failed f _ _ _ => f end.

(** [text.split(/\s+/).length] and [text.split('\n').length] *)
Definition word_count (text : string) : nat := List.length (split_ws text).
Definition line_count (text : string) : nat := List.length (split_nl text).

(** The body of the [for (const file of files)] loop. *)
Definition process_file (az : Analyzer) (file : UploadedFile) : FileResult :=
  match extractFromFile (fbuffer file) (originalname file) (fmimetype file) with
  | Ok extractedText =>
      Completed (originalname file) (fsize file) (fmimetype file) extractedText
        (analyzeText az extractedText) (word_count extractedText) (line_count extractedText)
  | Err message => Failed (originalname file) (fsize file) (fmimetype file) message
  end.

Inductive FilesResponse :=
| FilesError (status : nat) (error : string)
| FilesOk (processed_files : list FileResult) (total_files successful failed : nat).

(** [POST /api/process-files] *)
Definition process_files (az : Analyzer) (files : list UploadedFile) : FilesResponse :=
  match files with
  | [] => FilesError 400 "No files uploaded"
  | _ =>
      let results := fold_left (fun results file => (results ++ [process_file az file])%list)
                       files [] in
      FilesOk results (List.length files)
        (List.length (filter (fun r => String.eqb (fr_status r) "completed") results))
        (List.length (filter (fun r => String.eqb (fr_status r) "failed") results))
  end.

End Handlers.

Arguments extractFromFile {Buffer} utf8_decode pdf_text mammoth_text json_pretty buffer filename mimetype.
Arguments mkFile {Buffer} originalname fsize fmimetype fbuffer.
Arguments originalname {Buffer} u.
Arguments fsize {Buffer} u.
Arguments fmimetype {Buffer} u.
Arguments fbuffer {Buffer} u.
Arguments process_file {Buffer} utf8_decode pdf_text mammoth_text json_pretty az file.
Arguments process_files {Buffer} utf8_decode pdf_text mammoth_text json_pretty az files.

(** [POST /api/process-text]: [text] is [None] when absent. *)
Inductive TextResponse :=
| TextError (status : nat) (error : string)
| TextOk (original_text morphological_analysis : string) (lines_processed : nat).

Definition process_text (az : Analyzer) (text : option string) : TextResponse :=
  match text with
  | None => TextError 400 "No text provided for analysis"
  | Some t =>
      if String.eqb t "" then TextError 400 "No text provided for analysis"
      else
        let morphAnalysis := analyzeText az t in
        TextOk t morphAnalysis (List.length (split_nl morphAnalysis))
  end.

(** [POST /api/process-batch]: [texts] is [None] when absent or not an
    array. *)
Record BatchResult := mkBatchResult {
  b_index : nat; b_original_text : string; b_morphological_analysis : string;
  b_word_count : nat; b_line_count : nat }.

Inductive BatchResponse :=
| BatchError (status : nat) (error : string)
| BatchOk (results : list BatchResult) (total_texts total_words total_lines : nat).

Definition process_batch (az : Analyzer) (texts : option (list string)) : BatchResponse :=
  match texts with
  | None => BatchError 400 "Invalid texts array provided"
  | Some ts =>
      let results :=
        mapi_from (fun index text =>
          mkBatchResult index text (analyzeText az text) (word_count text) (line_count text)) 0 ts in
      BatchOk results (List.length ts)
        (fold_left (fun sum r => sum + b_word_count r) results 0)
        (fold_left (fun sum r => sum + b_line_count r) results 0)
  end.

(** ** Export: [convertToCSV] and [convertToText]

    An exported item's fields are [None] when absent; a string field is
    falsy when empty and a number field when zero. *)
Record ExportItem := mkItem {
  i_filename : option string; i_size : option nat; i_type : option string;
  i_status : option string; i_word_count : option nat; i_line_count : option nat;
  i_extracted_text : option string; i_morphological_analysis : option string;
  i_processing_timestamp : option string }.

Inductive ExportData :=
| DArray (items : list ExportItem)
| DOther.

(** [x || dflt] for a string field. *)
Definition str_or (x : option string) (dflt : string) : string :=
  match x with Some s => if String.eqb s "" then dflt else s | None => dflt end.

(** [x || 0] for a number field. *)
Definition num_or0 (x : option nat) : nat :=
  match x with Some n => n | None => 0 end.

(** [s.replace(/Q/g, 'QQ')], where Q is the double-quote character. *)
Definition dquote : ascii := ascii_of_nat 34.

Fixpoint double_quotes (s : string) : string :=
  match s with
  | EmptyString => EmptyString
  | String c r =>
      if Ascii.eqb c dquote then String c (String c (double_quotes r))
      else String c (double_quotes r)
  end.

Definition quote : string := String dquote EmptyString.

(** The preview cells: [(x || '').substring(0, 100)] with its quotes
    doubled, followed by three dots, between quotes. *)
Definition csv_preview (x : option string) : string :=
  quote ++ double_quotes (substring_to 100 (str_or x "")) ++ "..." ++ quote.

Definition csv_headers : list string :=
  ["Filename"; "Size"; "Type"; "Status"; "Word_Count"; "Line_Count";
   "Extracted_Text_Preview"; "Morphological_Analysis_Preview"; "Processing_Time"].

Definition csv_row (item : ExportItem) : string :=
  join ","
    [quote ++ str_or (i_filename item) "N/A" ++ quote;
     nat_to_string (num_or0 (i_size item));
     quote ++ str_or (i_type item) "N/A" ++ quote;
     quote ++ str_or (i_status item) "N/A" ++ quote;
     nat_to_string (num_or0 (i_word_count item));
     nat_to_string (num_or0 (i_line_count item));
     csv_preview (i_extracted_text item);
     csv_preview (i_morphological_analysis item);
     quote ++ str_or (i_processing_timestamp item) "N/A" ++ quote].

Definition convertToCSV (data : ExportData) : string :=
  let rows := [join "," csv_headers] in
  let rows := match data with
              | DArray items => fold_left (fun rows item => (rows ++ [csv_row item])%list) items rows
              | DOther => rows
              end in
  join newline rows.

(** [ch.repeat(n)] *)
Fixpoint repeat_char (c : ascii) (n : nat) : string :=
  match n with O => EmptyString | S m => String c (repeat_char c m) end.

Definition text_block (index : nat) (item : ExportItem) : string :=
  "FILE " ++ nat_to_string (index + 1) ++ ": " ++ str_or (i_filename item) "Unknown" ++ newline ++
  repeat_char "-" 30 ++ newline ++
  "Size: " ++ nat_to_string (num_or0 (i_size item)) ++ " bytes" ++ newline ++
  "Type: " ++ str_or (i_type item) "Unknown" ++ newline ++
  "Status: " ++ str_or (i_status item) "Unknown" ++ newline ++
  "Words: " ++ nat_to_string (num_or0 (i_word_count item)) ++ newline ++
  "Lines: " ++ nat_to_string (num_or0 (i_line_count item)) ++ newline ++ newline ++
  (match i_morphological_analysis item with
   | Some a =>
       if String.eqb a "" then ""
       else "MORPHOLOGICAL ANALYSIS:" ++ newline ++ a ++ newline ++ newline
   | None => ""
   end) ++
  newline ++ repeat_char "=" 50 ++ newline ++ newline.

Definition text_header : string :=
  "ZULU MORPHOLOGICAL ANALYSIS RESULTS" ++ newline ++ repeat_char "=" 50 ++ newline ++ newline.

Definition convertToText (data : ExportData) : string :=
  match data with
  | DArray items =>
      fold_left (fun text ii => text ++ text_block (fst ii) (snd ii))
        (combine (seq 0 (List.length items)) items) text_header
  | DOther => text_header
  end.

(** Reading a quoted CSV cell (RFC 4180): after the opening quote, two
    quotes stand for one and a lone quote closes the cell. *)
Fixpoint read_quoted_body (s : list ascii) : option (list ascii * list ascii) :=
  match s with
  | [] => None
  | c :: r =>
      if Ascii.eqb c dquote then
        match r with
        | d :: r' =>
            if Ascii.eqb d dquote then
              match read_quoted_body r' with
              | Some (body, rest) => Some ((c :: body)%list, rest)
              | None => None
              end
            else Some ([], r)
        | [] => Some ([], [])
        end
      else
        match read_quoted_body r with
        | Some (body, rest) => Some ((c :: body)%list, rest)
        | None => None
        end
  end.

Definition read_quoted (s : list ascii) : option (list ascii * list ascii) :=
  match s with
  | c :: r => if Ascii.eqb c dquote then read_quoted_body r else None
  | [] => None
  end.

(** Code units free of a newline. *)
Definition no_nl (s : string) : bool :=
  forallb (fun c => negb (Ascii.eqb c "010"%char)) (list_ascii_of_string s).

(** Lower-case form of a string followed by the concatenated morphs. *)
Definition concat_morphs (ms : list Morpheme) : string :=
  fold_right (fun m acc => morph m ++ acc) "" ms.

(** * Lemmas *)

(** ** Strings *)

Lemma prefix_split : forall p s,
  String.prefix p s = true -> s = p ++ substring_from (String.length p) s.
Proof.
  induction p as [|a p IH]; intros s H; [reflexivity|].
  destruct s as [|b s]; simpl in H; [discriminate|].
  destruct (ascii_dec a b) as [->|]; [|discriminate].
  simpl. f_equal. apply IH, H.
Qed.

Lemma length_substring_from : forall n s,
  String.length (substring_from n s) = String.length s - n.
Proof.
  induction n as [|n IH]; intros [|a s]; simpl; auto.
Qed.

Lemma length_substring_to : forall n s,
  n <= String.length s -> String.length (substring_to n s) = n.
Proof.
  induction n as [|n IH]; intros [|a s] H; simpl in *; try reflexivity; [lia|].
  f_equal. apply IH. lia.
Qed.

Lemma indexOf_from_split : forall p s k j,
  indexOf_from p s k = Some j ->
  k <= j /\ s = substring_to (j - k) s ++ p ++ substring_from (j - k + String.length p) s.
Proof.
  intros p s; induction s as [|a s IH]; intros k j H.
  - destruct p as [|b p]; simpl in H; [|discriminate].
    injection H as <-. rewrite Nat.sub_diag. split; [lia|]. reflexivity.
  - cbn [indexOf_from] in H. destruct (String.prefix p (String a s)) eqn:E.
    + injection H as <-. rewrite Nat.sub_diag. split; [lia|].
      apply prefix_split, E.
    + destruct (IH _ _ H) as [Hle Hs]. split; [lia|].
      replace (j - k) with (S (j - S k)) by lia. simpl. f_equal. exact Hs.
Qed.

Lemma indexOf_split : forall s p i,
  indexOf s p = Some i ->
  s = substring_to i s ++ p ++ substring_from (i + String.length p) s.
Proof.
  intros s p i H. destruct (indexOf_from_split _ _ _ _ H) as [_ Hs].
  rewrite Nat.sub_0_r in Hs. exact Hs.
Qed.

Lemma toLowerCase_length : forall s, String.length (toLowerCase s) = String.length s.
Proof. induction s; simpl; auto. Qed.

(** ** Table searches *)

Lemma find_prefix_In : forall {V} (o : jsobj V) s k v,
  find_prefix o s = Some (k, v) -> In (k, v) o /\ startsWith s k = true.
Proof.
  induction o as [|[k' v'] o IH]; intros s k v H; simpl in H; [discriminate|].
  destruct (startsWith s k') eqn:E.
  - injection H as <- <-. simpl; auto.
  - destruct (IH _ _ _ H). simpl; auto.
Qed.

Lemma find_equal_In : forall {V} (o : jsobj V) s k v,
  find_equal o s = Some (k, v) -> In (k, v) o /\ k = s.
Proof.
  induction o as [|[k' v'] o IH]; intros s k v H; simpl in H; [discriminate|].
  destruct (String.eqb s k') eqn:E.
  - injection H as <- <-. apply String.eqb_eq in E. simpl; auto.
  - destruct (IH _ _ _ H). simpl; auto.
Qed.

Lemma find_extension_In : forall o s e t i,
  find_extension o s = Some (e, t, i) -> In (e, t) o /\ indexOf s e = Some i /\ 0 < i.
Proof.
  induction o as [|[e' t'] o IH]; intros s e t i H; simpl in H; [discriminate|].
  destruct (includes s e');
    [destruct (indexOf s e') as [j|] eqn:Ej; [destruct (Nat.ltb 0 j) eqn:Elt|]|].
  - injection H as <- <- <-. apply Nat.ltb_lt in Elt. simpl; auto.
  - destruct (IH _ _ _ _ H) as (? & ? & ?). simpl; auto.
  - destruct (IH _ _ _ _ H) as (? & ? & ?). simpl; auto.
  - destruct (IH _ _ _ _ H) as (? & ? & ?). simpl; auto.
Qed.

Lemma nonempty_keys_In : forall {V} (o : jsobj V) k v,
  nonempty_keys o = true -> In (k, v) o -> k <> "".
Proof.
  intros V o k v H Hin. unfold nonempty_keys in H. rewrite forallb_forall in H.
  specialize (H _ Hin). simpl in H. intros ->. discriminate.
Qed.

(** ** The stripping loop *)

Lemma run_loop_acc : forall az n rem acc out,
  run_loop az n rem acc = Some out -> exists rest, out = (acc ++ rest)%list.
Proof.
  intros az n; induction n as [|n IH]; intros rem acc out H; destruct rem as [|a s];
    simpl in H; try discriminate.
  - injection H as <-. exists []. symmetry. apply app_nil_r.
  - injection H as <-. exists []. symmetry. apply app_nil_r.
  - destruct (step az (String a s)) as [ms r|ms].
    + destruct (IH _ _ _ H) as [rest ->]. exists (ms ++ rest)%list. symmetry. apply app_assoc.
    + injection H as <-. eauto.
Qed.

(** A property of morphemes kept by every step of the loop holds of its
    whole output. *)
Lemma run_loop_Forall : forall (P : Morpheme -> Prop) az,
  (forall rem ms r, rem <> EmptyString -> step az rem = Next ms r -> Forall P ms) ->
  (forall rem ms, rem <> EmptyString -> step az rem = Halt ms -> Forall P ms) ->
  forall n rem acc out, Forall P acc -> run_loop az n rem acc = Some out -> Forall P out.
Proof.
  intros P az HN HH n; induction n as [|n IH]; intros rem acc out Hacc H;
    destruct rem as [|a s]; simpl in H; try discriminate.
  - injection H as <-. exact Hacc.
  - injection H as <-. exact Hacc.
  - destruct (step az (String a s)) as [ms r|ms] eqn:E.
    + apply (IH r (acc ++ ms)%list); [|exact H].
      apply Forall_app. split; [exact Hacc|]. apply (HN (String a s) ms r); [discriminate|exact E].
    + injection H as <-. apply Forall_app. split; [exact Hacc|].
      apply (HH (String a s) ms); [discriminate|exact E].
Qed.

Section Termination.

Variable az : Analyzer.
Hypothesis nouns_nonempty : nonempty_keys (nounPrefixes az) = true.
Hypothesis commons_nonempty : nonempty_keys (commonMorphemes az) = true.

Lemma step_shrinks : forall rem ms r,
  rem <> EmptyString -> step az rem = Next ms r -> String.length r < String.length rem.
Proof.
  intros rem ms r Hne H.
  assert (Hlen : 0 < String.length rem) by (destruct rem; [contradiction|simpl; lia]).
  unfold step in H.
  destruct (find_prefix (nounPrefixes az) rem) as [[k info]|] eqn:E1.
  { injection H as _ <-. destruct (find_prefix_In _ _ _ _ E1) as [Hin _].
    pose proof (nonempty_keys_In _ _ _ nouns_nonempty Hin) as Hk.
    rewrite length_substring_from.
    destruct k; [contradiction|simpl; lia]. }
  destruct (find_prefix (commonMorphemes az) rem) as [[k t]|] eqn:E2.
  { injection H as _ <-. destruct (find_prefix_In _ _ _ _ E2) as [Hin _].
    pose proof (nonempty_keys_In _ _ _ commons_nonempty Hin) as Hk.
    rewrite length_substring_from.
    destruct k; [contradiction|simpl; lia]. }
  destruct (find_extension (verbExtensions az) rem) as [[[e t] i]|] eqn:E3.
  { injection H as _ <-. destruct (find_extension_In _ _ _ _ _ E3) as (_ & _ & Hi).
    rewrite length_substring_from. lia. }
  destruct (verb_term rem) as [ms'|].
  { injection H as _ <-. simpl. exact Hlen. }
  destruct (find_equal (quantifiers az) rem) as [[q t]|].
  { injection H as _ <-. simpl. exact Hlen. }
  discriminate.
Qed.

Lemma run_loop_total : forall n rem acc,
  String.length rem <= n -> exists out, run_loop az n rem acc = Some out.
Proof.
  induction n as [|n IH]; intros rem acc Hle; destruct rem as [|a s]; simpl; eauto.
  - simpl in Hle. lia.
  - destruct (step az (String a s)) as [ms r|ms] eqn:E; [|eauto].
    apply IH. pose proof (step_shrinks (String a s) ms r ltac:(discriminate) E) as Hs.
    simpl in Hs, Hle. lia.
Qed.

End Termination.

Lemma zulu_nouns_nonempty : nonempty_keys (nounPrefixes zulu) = true.
Proof. reflexivity. Qed.

Lemma zulu_commons_nonempty : nonempty_keys (commonMorphemes zulu) = true.
Proof. reflexivity. Qed.

Lemma zulu_run_loop_total : forall rem acc,
  exists out, run_loop zulu (String.length rem) rem acc = Some out.
Proof.
  intros rem acc. apply run_loop_total;
    [exact zulu_nouns_nonempty | exact zulu_commons_nonempty | lia].
Qed.

Lemma analyzeWord_opt_zulu : forall w, analyzeWord_opt zulu w = Some (analyzeWord zulu w).
Proof.
  intros w. unfold analyzeWord, analyzeWord_opt.
  destruct (fast_path zulu w); [reflexivity|].
  destruct (zulu_run_loop_total (toLowerCase w) []) as [out ->]. reflexivity.
Qed.

(** ** Table facts *)

Lemma find_prefix_app : forall {V} (pre post : jsobj V) k v s,
  Forall (fun kv => startsWith s (fst kv) = false) pre ->
  startsWith s k = true ->
  find_prefix (pre ++ (k, v) :: post)%list s = Some (k, v).
Proof.
  induction pre as [|[k' v'] pre IH]; intros post k v s Hpre Hk; simpl.
  - rewrite Hk. reflexivity.
  - inversion Hpre as [|? ? Hk' Hrest]; subst. simpl in Hk'. rewrite Hk'.
    apply IH; assumption.
Qed.

Lemma find_extension_app : forall pre post e t s i,
  Forall (fun kv => indexOf s (fst kv) = None \/ indexOf s (fst kv) = Some 0) pre ->
  indexOf s e = Some i -> 0 < i ->
  find_extension (pre ++ (e, t) :: post)%list s = Some (e, t, i).
Proof.
  induction pre as [|[e' t'] pre IH]; intros post e t s i Hpre He Hi; simpl.
  - unfold includes. rewrite He. apply Nat.ltb_lt in Hi. rewrite Hi. reflexivity.
  - inversion Hpre as [|? ? Hk' Hrest]; subst. simpl in Hk'.
    unfold includes. destruct Hk' as [-> | ->]; simpl; apply IH; assumption.
Qed.

Lemma lookup_nat_In : forall l k v, lookup_nat l k = Some v -> In (k, v) l.
Proof.
  induction l as [|[k' v'] l IH]; intros k v H; simpl in H; [discriminate|].
  destruct (Nat.eqb k k') eqn:E.
  - apply Nat.eqb_eq in E. injection H as <-. subst. simpl; auto.
  - simpl; auto.
Qed.

Lemma getNounBasicPrefix_nonempty : forall n bp,
  getNounBasicPrefix n = Some bp -> bp <> EmptyString.
Proof.
  intros n bp H. apply lookup_nat_In in H. simpl in H.
  repeat destruct H as [H|H]; try contradiction; injection H as _ <-; discriminate.
Qed.

Lemma noun_emit_cons : forall c r info,
  noun_emit (String c r) info =
  mkMorpheme (String c EmptyString) (Tag (ntype info)) ::
  (if Nat.ltb 1 (String.length (String c r)) then
     match getNounBasicPrefix (nclass info) with
     | Some bp => [mkMorpheme bp (Tag ("BPre" ++ nat_to_string (nclass info)))]
     | None => []
     end
   else []).
Proof.
  intros c r info. unfold noun_emit. simpl substring_to.
  destruct (Nat.ltb 1 _); [|reflexivity].
  destruct (getNounBasicPrefix (nclass info)) as [bp|] eqn:E; [|reflexivity].
  apply getNounBasicPrefix_nonempty in E. unfold truthy.
  destruct (String.eqb bp "") eqn:Eb; [apply String.eqb_eq in Eb; contradiction|reflexivity].
Qed.

Ltac enum_in H :=
  vm_compute in H; repeat destruct H as [H|H]; try contradiction;
  injection H as <- <-.

Lemma step_umu : forall rem,
  startsWith rem "umu" = true ->
  step zulu rem = Next [mkMorpheme "u" (Tag "NPrePre3"); mkMorpheme "mu" (Tag "BPre3")]
                       (substring_from 3 rem).
Proof.
  intros rem H. unfold step.
  change (nounPrefixes zulu) with
    ([] ++ ("umu", mkNounInfo 3 "NPrePre3") :: tl (nounPrefixes zulu))%list.
  rewrite find_prefix_app; [reflexivity|constructor|exact H].
Qed.

(** ** What one step emits *)

Lemma step_Next_cases : forall az rem ms r,
  step az rem = Next ms r ->
  (exists k info, find_prefix (nounPrefixes az) rem = Some (k, info) /\ ms = noun_emit k info) \/
  (exists k t, find_prefix (commonMorphemes az) rem = Some (k, t) /\ ms = [mkMorpheme k (Tag t)]) \/
  (exists e t i, find_extension (verbExtensions az) rem = Some (e, t, i) /\
     ms = [mkMorpheme (substring_to i rem) (Tag "VRoot"); mkMorpheme e (Tag t)]) \/
  verb_term rem = Some ms \/
  (exists q t, find_equal (quantifiers az) rem = Some (q, t) /\ ms = [mkMorpheme q (Tag t)]).
Proof.
  intros az rem ms r H. unfold step in H.
  destruct (find_prefix (nounPrefixes az) rem) as [[k info]|] eqn:E1.
  { injection H as <- _. left. eauto. }
  destruct (find_prefix (commonMorphemes az) rem) as [[k t]|] eqn:E2.
  { injection H as <- _. right; left. eauto. }
  destruct (find_extension (verbExtensions az) rem) as [[[e t] i]|] eqn:E3.
  { injection H as <- _. right; right; left. eauto 6. }
  destruct (verb_term rem) as [ms'|] eqn:E4.
  { injection H as <- _. right; right; right; left. reflexivity. }
  destruct (find_equal (quantifiers az) rem) as [[q t]|] eqn:E5.
  { injection H as <- _. right; right; right; right. eauto. }
  discriminate.
Qed.

Lemma step_Halt_cases : forall az rem ms,
  step az rem = Halt ms -> ms = [mkMorpheme rem (Tag "NStem")].
Proof.
  intros az rem ms H. unfold step in H.
  destruct (find_prefix (nounPrefixes az) rem) as [[k info]|]; [discriminate|].
  destruct (find_prefix (commonMorphemes az) rem) as [[k t]|]; [discriminate|].
  destruct (find_extension (verbExtensions az) rem) as [[[e t] i]|]; [discriminate|].
  destruct (verb_term rem); [discriminate|].
  destruct (find_equal (quantifiers az) rem) as [[q t]|]; [discriminate|].
  injection H as <-. reflexivity.
Qed.

Lemma verb_term_some : forall rem ms,
  verb_term rem = Some ms ->
  exists root, root <> EmptyString /\
    ms = [mkMorpheme root (Tag "VRoot"); mkMorpheme "a" (Tag "VerbTerm")].
Proof.
  intros rem ms H. unfold verb_term in H.
  destruct (endsWith_char rem "a" && Nat.ltb 1 (String.length rem)); [|discriminate].
  destruct (Nat.ltb 0 (String.length (substring_to (String.length rem - 1) rem))) eqn:E;
    [|discriminate].
  injection H as <-. eexists; split; [|reflexivity].
  apply Nat.ltb_lt in E. intros Hr. rewrite Hr in E. simpl in E. lia.
Qed.

Lemma obj_get_In : forall {V} (o : jsobj V) k v, obj_get o k = Some v -> In (k, v) o.
Proof.
  induction o as [|[k' v'] o IH]; intros k v H; simpl in H; [discriminate|].
  destruct (String.eqb k k') eqn:E.
  - apply String.eqb_eq in E. injection H as <-. subst. simpl; auto.
  - simpl; auto.
Qed.

Lemma obj_read_cases : forall o k v,
  obj_read o k = Some v -> (exists x, In (k, x) o /\ v = Tag x) \/ v = ProtoVal k.
Proof.
  intros o k v H. unfold obj_read in H.
  destruct (obj_get o k) as [x|] eqn:E.
  - injection H as <-. left. exists x. split; [apply obj_get_In, E|reflexivity].
  - destruct (existsb _ _); [injection H as <-; right; reflexivity|discriminate].
Qed.

(** The fast paths return one morpheme: the word, its lower-case form
    with a vocabulary value, or the word as a proper name. *)
Lemma fast_path_cases : forall az w ms,
  fast_path az w = Some ms ->
  ms = [mkMorpheme w (Tag "Punc")] \/
  (exists v, obj_read (vocabulary az) (toLowerCase w) = Some v /\
             ms = [mkMorpheme (toLowerCase w) v]) \/
  ms = [mkMorpheme w (Tag "ProperName")].
Proof.
  intros az w ms H. unfold fast_path, proper_name_path in H.
  destruct (is_punct w); [injection H as <-; left; reflexivity|].
  destruct (obj_read (vocabulary az) (toLowerCase w)) as [v|] eqn:E;
    [destruct (truthy v); [injection H as <-; right; left; eauto|]|];
    (destruct (_ && _); [injection H as <-; right; right; reflexivity|discriminate]).
Qed.

Lemma analyzeWord_Forall : forall (P : Morpheme -> Prop) w,
  (forall ms, fast_path zulu w = Some ms -> Forall P ms) ->
  (forall rem ms r, rem <> EmptyString -> step zulu rem = Next ms r -> Forall P ms) ->
  (forall rem ms, rem <> EmptyString -> step zulu rem = Halt ms -> Forall P ms) ->
  P (mkMorpheme w (Tag "Unknown")) ->
  Forall P (analyzeWord zulu w).
Proof.
  intros P w HF HN HH HU. unfold analyzeWord, analyzeWord_opt.
  destruct (fast_path zulu w) as [ms|] eqn:Ef; [apply HF; reflexivity|].
  destruct (zulu_run_loop_total (toLowerCase w) []) as [out Hout]. rewrite Hout.
  destruct out as [|m out]; [constructor; [exact HU|constructor]|].
  exact (run_loop_Forall P zulu HN HH _ _ _ _ (Forall_nil _) Hout).
Qed.

Ltac split_in H :=
  repeat (destruct H as [H|H]; [try (injection H as <- <-); try subst|]); try contradiction.

Ltac morphemes_ok := repeat constructor; cbn; discriminate.

(** ** Lines and words *)

Open Scope list_scope.



Lemma filter_app_hd_nil : forall l, filter nonnil (app_hd [] l) = filter nonnil l.
Proof. intros [|x l]; reflexivity. Qed.

Lemma app_hd_cons_hd : forall cur c l, app_hd cur (cons_hd c l) = app_hd (cur ++ [c]) l.
Proof.
  intros cur c [|x l]; simpl; [reflexivity|]. rewrite <- app_assoc. reflexivity.
Qed.

(** The regular-expression split keeps the non-empty pieces of the split
    at every white-space character. *)
Lemma split_ws_go_filter : forall s cur sk,
  (sk = true -> cur = []) ->
  filter nonnil (split_ws_go s cur sk) = filter nonnil (app_hd cur (split_at_each is_ws s)).
Proof.
  induction s as [|c s IH]; intros cur sk Hsk; simpl.
  - rewrite app_nil_r. reflexivity.
  - destruct (is_ws c) eqn:Ec.
    + destruct sk.
      * rewrite (Hsk eq_refl). rewrite IH by auto. rewrite filter_app_hd_nil. reflexivity.
      * simpl. rewrite app_nil_r. rewrite IH by auto. rewrite filter_app_hd_nil. reflexivity.
    + rewrite IH by discriminate. rewrite app_hd_cons_hd. reflexivity.
Qed.

Lemma split_ws_go_nonnil : forall s cur sk,
  (sk = true -> cur = []) -> (sk = false -> cur <> []) ->
  (s = [] -> cur <> []) -> (s <> [] -> ends_nonws s = true) ->
  Forall (fun x => nonnil x = true) (split_ws_go s cur sk).
Proof.
  induction s as [|c s IH]; intros cur sk H1 H2 H3 H4; simpl.
  - constructor; [|constructor]. destruct cur; [exfalso; exact (H3 eq_refl eq_refl)|reflexivity].
  - assert (Hs : s <> [] -> ends_nonws s = true).
    { intros Hne. specialize (H4 ltac:(discriminate)). destruct s; [contradiction|exact H4]. }
    destruct (is_ws c) eqn:Ec.
    + assert (Hne : s <> []).
      { intros ->. specialize (H4 ltac:(discriminate)). simpl in H4. rewrite Ec in H4.
        discriminate. }
      destruct sk.
      * rewrite (H1 eq_refl). apply IH; auto. discriminate.
      * constructor; [destruct cur; [exfalso; exact (H2 eq_refl eq_refl)|reflexivity]|].
        apply IH; auto. discriminate.
    + apply IH; auto; try discriminate; intros _; destruct cur; discriminate.
Qed.

Lemma split_at_each_not_nil : forall p s, split_at_each p s <> [].
Proof.
  intros p [|c s]; simpl; [discriminate|].
  destruct (p c); [discriminate|]. destruct (split_at_each p s); discriminate.
Qed.

Lemma split_ws_app_left : forall t m,
  forallb is_ws t = true ->
  split_at_each is_ws (t ++ m) = map (fun _ => []) t ++ split_at_each is_ws m.
Proof.
  induction t as [|c t IH]; intros m H; simpl in *; [reflexivity|].
  apply andb_prop in H as [Hc Ht]. rewrite Hc, IH by exact Ht. reflexivity.
Qed.

Lemma split_ws_snoc : forall l c,
  is_ws c = true -> split_at_each is_ws (l ++ [c]) = split_at_each is_ws l ++ [[]].
Proof.
  induction l as [|d l IH]; intros c Hc; simpl.
  - rewrite Hc. reflexivity.
  - rewrite IH by exact Hc. destruct (is_ws d); [reflexivity|].
    pose proof (split_at_each_not_nil is_ws l) as Hn.
    destruct (split_at_each is_ws l); [contradiction|reflexivity].
Qed.

Lemma split_ws_app_right : forall t m,
  forallb is_ws t = true ->
  split_at_each is_ws (m ++ t) = split_at_each is_ws m ++ map (fun _ => []) t.
Proof.
  induction t as [|c t IH]; intros m H; simpl in *.
  - rewrite !app_nil_r. reflexivity.
  - apply andb_prop in H as [Hc Ht].
    replace (m ++ c :: t) with ((m ++ [c]) ++ t) by (rewrite <- app_assoc; reflexivity).
    rewrite IH, split_ws_snoc by assumption. rewrite <- app_assoc. reflexivity.
Qed.

Lemma filter_nonnil_blanks : forall {A} (t : list A),
  filter nonnil (map (fun _ => []) t) = [].
Proof. induction t; simpl; auto. Qed.

Lemma ltrim_decomp : forall l, exists t, l = t ++ ltrim l /\ forallb is_ws t = true.
Proof.
  induction l as [|c l [t [Ht Hw]]]; simpl; [exists []; auto|].
  destruct (is_ws c) eqn:Ec.
  - exists (c :: t). simpl. rewrite Ec, Hw. split; [f_equal; exact Ht|reflexivity].
  - exists []. auto.
Qed.

Lemma rtrim_decomp : forall l, exists t, l = rtrim l ++ t /\ forallb is_ws t = true.
Proof.
  induction l as [|c l [t [Ht Hw]]]; simpl; [exists []; auto|].
  destruct (rtrim l) as [|x r] eqn:Er.
  - destruct (is_ws c) eqn:Ec.
    + exists (c :: t). simpl. rewrite Ec, Hw. split; [f_equal; exact Ht|reflexivity].
    + exists t. simpl. split; [f_equal; exact Ht|exact Hw].
  - exists t. split; [rewrite Ht at 1; reflexivity|exact Hw].
Qed.

Lemma filter_split_trim : forall l,
  filter nonnil (split_at_each is_ws (rtrim (ltrim l))) = filter nonnil (split_at_each is_ws l).
Proof.
  intros l.
  destruct (ltrim_decomp l) as [t1 [E1 W1]].
  destruct (rtrim_decomp (ltrim l)) as [t2 [E2 W2]].
  rewrite E1 at 2. rewrite split_ws_app_left, filter_app, filter_nonnil_blanks by exact W1.
  rewrite E2 at 2. rewrite split_ws_app_right, filter_app, filter_nonnil_blanks by exact W2.
  simpl. rewrite app_nil_r. reflexivity.
Qed.

Lemma forallb_ltrim : forall l, forallb is_ws (ltrim l) = forallb is_ws l.
Proof.
  induction l as [|c l IH]; simpl; [reflexivity|].
  destruct (is_ws c) eqn:Ec; [exact IH|]. simpl. rewrite Ec. reflexivity.
Qed.

Lemma rtrim_nil_iff : forall l, rtrim l = [] <-> forallb is_ws l = true.
Proof.
  induction l as [|c l IH]; simpl; [split; reflexivity|].
  destruct (rtrim l) as [|x r] eqn:Er.
  - destruct (is_ws c); simpl; [rewrite <- IH; split; reflexivity|split; discriminate].
  - split; [discriminate|]. intros H. apply andb_prop in H as [_ H].
    apply IH in H. discriminate.
Qed.

Lemma ltrim_head : forall l,
  forallb is_ws l = false -> exists c r, ltrim l = c :: r /\ is_ws c = false.
Proof.
  induction l as [|c l IH]; simpl; intros H; [discriminate|].
  destruct (is_ws c) eqn:Ec; [apply IH, H|]. eauto.
Qed.

Lemma rtrim_head : forall c r, is_ws c = false -> exists r', rtrim (c :: r) = c :: r'.
Proof.
  intros c r Hc. simpl. destruct (rtrim r); [rewrite Hc|]; eauto.
Qed.

Lemma rtrim_ends : forall l, rtrim l <> [] -> ends_nonws (rtrim l) = true.
Proof.
  induction l as [|c l IH]; simpl; intros H; [contradiction|].
  destruct (rtrim l) as [|x r] eqn:Er.
  - destruct (is_ws c) eqn:Ec; [contradiction|]. simpl. rewrite Ec. reflexivity.
  - simpl. apply IH. discriminate.
Qed.

Lemma filter_all_true : forall {A} (f : A -> bool) l,
  Forall (fun x => f x = true) l -> filter f l = l.
Proof.
  intros A f l H; induction H as [|x l Hx _ IH]; simpl; [reflexivity|].
  rewrite Hx, IH. reflexivity.
Qed.

Lemma trim_empty_blank : forall line, String.eqb (trim line) "" = blank line.
Proof.
  intros line. unfold trim, blank.
  destruct (rtrim (ltrim (list_ascii_of_string line))) as [|c r] eqn:E; simpl.
  - symmetry. rewrite <- forallb_ltrim. apply rtrim_nil_iff, E.
  - destruct (forallb is_ws (list_ascii_of_string line)) eqn:Eb; [|reflexivity].
    rewrite <- forallb_ltrim in Eb. apply rtrim_nil_iff in Eb. congruence.
Qed.

Lemma split_ws_trim : forall line,
  blank line = false -> split_ws (trim line) = words_spec line.
Proof.
  intros line Hb. unfold split_ws, trim, words_spec, blank in *.
  rewrite list_ascii_of_string_of_list_ascii. f_equal.
  set (L := list_ascii_of_string line) in *.
  destruct (ltrim_head _ Hb) as (c & r & Hl & Hc).
  destruct (rtrim_head c r Hc) as [r' Hr].
  rewrite <- filter_split_trim, Hl, Hr.
  rewrite <- (filter_app_hd_nil (split_at_each is_ws (c :: r'))).
  rewrite <- (split_ws_go_filter (c :: r') [] false) by discriminate.
  symmetry. apply filter_all_true.
  simpl. rewrite Hc. apply split_ws_go_nonnil; try (intros; discriminate).
  intros Hne. pose proof (rtrim_ends (c :: r)) as He. rewrite Hr in He.
  specialize (He ltac:(discriminate)). destruct r' as [|x y]; [contradiction|exact He].
Qed.

Lemma mapi_from_ext_in : forall {A B} (f g : nat -> A -> B) l i,
  (forall j x, In x l -> f j x = g j x) -> mapi_from f i l = mapi_from g i l.
Proof.
  intros A B f g l; induction l as [|x l IH]; intros i H; simpl; [reflexivity|].
  rewrite H by (left; reflexivity). f_equal. apply IH. intros j y Hy. apply H. right; exact Hy.
Qed.

Open Scope string_scope.

(** * Claims *)

(** C5: [analyzeWord] is total and never fails: for every string the loop
    halts within its bound, the result has at least one morpheme, and the
    empty string yields exactly [[{morph: "", tag: "Unknown"}]]. *)
Theorem C5_analyzeWord_total :
  (forall w, exists ms, analyzeWord_opt zulu w = Some ms /\ 1 <= length ms) /\
  analyzeWord_opt zulu "" = Some [mkMorpheme "" (Tag "Unknown")].
Proof.
  split; [|reflexivity].
  intros w. unfold analyzeWord_opt.
  destruct (fast_path zulu w) as [ms|] eqn:Ef.
  - exists ms. split; [reflexivity|].
    unfold fast_path, proper_name_path in Ef.
    repeat match type of Ef with
      | context [if ?b then _ else _] => destruct b
      | context [match ?x with Some _ => _ | None => _ end] => destruct x
      end; try discriminate; injection Ef as <-; simpl; lia.
  - destruct (zulu_run_loop_total (toLowerCase w) []) as [out ->].
    eexists; split; [reflexivity|]. destruct out; simpl; lia.
Qed.

(** C6: the stripping loop terminates: every iteration that does not break
    leaves a strictly shorter [remaining] (the empty string for rules 4 and
    5), so the loop halts within [length (toLowerCase w)] iterations. *)
Theorem C6_loop_terminates :
  (forall rem ms r, rem <> EmptyString -> step zulu rem = Next ms r ->
     String.length r < String.length rem) /\
  (forall w acc, exists out,
     run_loop zulu (String.length (toLowerCase w)) (toLowerCase w) acc = Some out).
Proof.
  split.
  - apply step_shrinks; [exact zulu_nouns_nonempty | exact zulu_commons_nonempty].
  - intros w acc. apply zulu_run_loop_total.
Qed.

Lemma C6_loop_terminates_witness :
  "uku" <> EmptyString /\ step zulu "ukubona" = Next [mkMorpheme "u" (Tag "NPrePre15"); mkMorpheme "ku" (Tag "BPre15")] "bona" /\
  String.length "bona" < String.length "ukubona".
Proof.
  split; [discriminate|]. split; [reflexivity|].
  apply (proj1 C6_loop_terminates "ukubona" [mkMorpheme "u" (Tag "NPrePre15"); mkMorpheme "ku" (Tag "BPre15")]);
    [discriminate | reflexivity].
Defined.

(** C1 (as stated, refuted): reading rule 3 as "the first pattern that
    occurs at some index greater than 0" fails: in ["anban"] the pattern
    ["an"] occurs at index 3, yet the code finds no extension, because
    [indexOf] reports the occurrence at index 0 and the pattern is skipped. *)
Lemma C1_counterexample :
  ~ (forall rem ext t i,
       find_prefix (nounPrefixes zulu) rem = None ->
       find_prefix (commonMorphemes zulu) rem = None ->
       find_extension_spec (verbExtensions zulu) rem = Some (ext, t, i) ->
       step zulu rem =
         Next [mkMorpheme (substring_to i rem) (Tag "VRoot"); mkMorpheme ext (Tag t)]
              (substring_from (i + String.length ext) rem)).
Proof.
  intro H.
  specialize (H "anban" "an" "RecExt" 3 eq_refl eq_refl eq_refl).
  vm_compute in H. discriminate H.
Qed.

(** C1 (amended): for a [remaining] that matches no noun prefix and no
    common morpheme, the extensions are tried in the order el, an, akal,
    is, w; the engine commits to the first one whose FIRST occurrence
    ([indexOf]) is at an index [i > 0] (an earlier pattern that is absent
    or first occurs at index 0 is skipped), emits [(remaining[0:i], VRoot)]
    then [(pattern, tag)], and continues with the suffix after that
    occurrence. *)
Theorem C1_first_extension_by_indexOf :
  map fst (verbExtensions zulu) = ["el"; "an"; "akal"; "is"; "w"] /\
  (forall rem pre ext t post i,
     find_prefix (nounPrefixes zulu) rem = None ->
     find_prefix (commonMorphemes zulu) rem = None ->
     verbExtensions zulu = (pre ++ (ext, t) :: post)%list ->
     Forall (fun kv => indexOf rem (fst kv) = None \/ indexOf rem (fst kv) = Some 0) pre ->
     indexOf rem ext = Some i -> 0 < i ->
     step zulu rem =
       Next [mkMorpheme (substring_to i rem) (Tag "VRoot"); mkMorpheme ext (Tag t)]
            (substring_from (i + String.length ext) rem) /\
     rem = substring_to i rem ++ ext ++ substring_from (i + String.length ext) rem).
Proof.
  split; [reflexivity|].
  intros rem pre ext t post i Hn Hc Hv Hpre Hi Hpos.
  split; [|apply indexOf_split, Hi].
  unfold step. rewrite Hn, Hc, Hv.
  rewrite (find_extension_app pre post ext t rem i Hpre Hi Hpos). reflexivity.
Qed.

Lemma C1_first_extension_by_indexOf_witness :
  step zulu "bonisa" =
    Next [mkMorpheme "bon" (Tag "VRoot"); mkMorpheme "is" (Tag "CausExt")] "a" /\
  "bonisa" = "bon" ++ "is" ++ "a".
Proof.
  apply (proj2 C1_first_extension_by_indexOf "bonisa"
           [("el", "ApplExt"); ("an", "RecExt"); ("akal", "NeutExt")]
           "is" "CausExt" [("w", "PassExt")] 3);
    [reflexivity | reflexivity | reflexivity | | reflexivity | lia].
  repeat constructor; left; reflexivity.
Defined.

(** C2 (code bug): the vocabulary check is a plain property read
    [this.vocabulary[remaining]], which also finds the properties of
    [Object.prototype]: ["constructor"] and ["__proto__"] are not declared
    keys, yet the check fires and returns the prototype's value as tag. *)
Theorem C2_vocabulary_prototype_hit :
  existsb (String.eqb "constructor") (map fst vocabulary_decl) = false /\
  existsb (String.eqb "__proto__") (map fst vocabulary_decl) = false /\
  toLowerCase "constructor" = "constructor" /\
  analyzeWord zulu "constructor" = [mkMorpheme "constructor" (ProtoVal "constructor")] /\
  formatMorphAnalysis "constructor" (analyzeWord zulu "constructor") =
    "constructor[function Object() { [native code] }]" /\
  analyzeWord zulu "__proto__" = [mkMorpheme "__proto__" (ProtoVal "__proto__")].
Proof. repeat split; vm_compute; reflexivity. Qed.

(** C3: when the noun-class-prefix rule fires on [prefix] (the first
    prefix, in iteration order, that starts [remaining]), the engine emits
    the first character of [prefix] with the prefix type, then, if
    [prefix] is longer than one character and the class has a basic
    prefix, [(basicPrefix, "BPre" + class)]; [remaining] advances past the
    whole of [prefix]. *)
Theorem C3_noun_prefix_consumes_pattern : forall rem pre prefix info post,
  nounPrefixes zulu = (pre ++ (prefix, info) :: post)%list ->
  Forall (fun kv => startsWith rem (fst kv) = false) pre ->
  startsWith rem prefix = true ->
  exists c r,
    prefix = String c r /\
    step zulu rem =
      Next (mkMorpheme (String c EmptyString) (Tag (ntype info)) ::
            (if Nat.ltb 1 (String.length prefix) then
               match getNounBasicPrefix (nclass info) with
               | Some bp => [mkMorpheme bp (Tag ("BPre" ++ nat_to_string (nclass info)))]
               | None => []
               end
             else []))
           (substring_from (String.length prefix) rem) /\
    rem = prefix ++ substring_from (String.length prefix) rem.
Proof.
  intros rem pre prefix info post Hz Hpre Hp.
  assert (Hin : In (prefix, info) (nounPrefixes zulu))
    by (rewrite Hz; apply in_or_app; right; left; reflexivity).
  pose proof (nonempty_keys_In _ _ _ zulu_nouns_nonempty Hin) as Hne.
  destruct prefix as [|c r]; [contradiction|].
  exists c, r. split; [reflexivity|]. split; [|apply prefix_split, Hp].
  unfold step. rewrite Hz, find_prefix_app by assumption.
  rewrite noun_emit_cons. reflexivity.
Qed.

Lemma C3_noun_prefix_consumes_pattern_witness :
  step zulu "abantu" =
    Next [mkMorpheme "a" (Tag "NPrePre2"); mkMorpheme "ba" (Tag "BPre2")] "ntu".
Proof.
  destruct (C3_noun_prefix_consumes_pattern "abantu"
              [("umu", mkNounInfo 3 "NPrePre3")] "aba" (mkNounInfo 2 "NPrePre2")
              (tl (tl (nounPrefixes zulu))) ltac:(vm_compute; reflexivity)
              ltac:(repeat constructor) ltac:(reflexivity)) as (c & r & Hc & Hs & _).
  injection Hc as <- <-. rewrite Hs. reflexivity.
Defined.

(** C4: the literal of [nounPrefixes] declares ["umu"] twice (classes 1
    and 3); the object keeps one ["umu"] property, holding the class-3
    entry, so a word that reaches the loop with a lower-cased form
    beginning with ["umu"] starts with [("u", "NPrePre3")] and
    [("mu", "BPre3")], and no output of [analyzeWord] carries the class-1
    tags. *)
Theorem C4_umu_class3_shadows_class1 :
  filter (fun kv => String.eqb (fst kv) "umu") nounPrefixes_decl =
    [("umu", mkNounInfo 1 "NPrePre1"); ("umu", mkNounInfo 3 "NPrePre3")] /\
  filter (fun kv => String.eqb (fst kv) "umu") (nounPrefixes zulu) =
    [("umu", mkNounInfo 3 "NPrePre3")] /\
  (forall w, fast_path zulu w = None -> startsWith (toLowerCase w) "umu" = true ->
     exists rest, analyzeWord zulu w =
       mkMorpheme "u" (Tag "NPrePre3") :: mkMorpheme "mu" (Tag "BPre3") :: rest) /\
  (forall w, Forall (fun m => mtag m <> Tag "NPrePre1" /\ mtag m <> Tag "BPre1")
                    (analyzeWord zulu w)).
Proof.
  split; [reflexivity|]. split; [reflexivity|]. split.
  - intros w Hf Hu. unfold analyzeWord, analyzeWord_opt. rewrite Hf.
    remember (toLowerCase w) as rem eqn:Erem.
    destruct rem as [|a s]; [discriminate|].
    cbn [String.length run_loop]. rewrite (step_umu _ Hu).
    destruct (run_loop_total zulu zulu_nouns_nonempty zulu_commons_nonempty
                (String.length s) (substring_from 3 (String a s))
                ([] ++ [mkMorpheme "u" (Tag "NPrePre3"); mkMorpheme "mu" (Tag "BPre3")])%list)
      as [out Hout].
    { rewrite length_substring_from. simpl. lia. }
    rewrite Hout. destruct (run_loop_acc _ _ _ _ _ Hout) as [rest ->].
    exists rest. reflexivity.
  - intros w. apply analyzeWord_Forall.
    + intros ms Hf. apply fast_path_cases in Hf as [->|[(v & Hv & ->)| ->]];
        [morphemes_ok| |morphemes_ok].
      apply obj_read_cases in Hv as [(x & Hin & ->)| ->]; [|morphemes_ok].
      apply (in_map snd) in Hin. vm_compute in Hin. split_in Hin; morphemes_ok.
    + intros rem ms r _ H.
      apply step_Next_cases in H
        as [(k & info & E & ->)|[(k & t & E & ->)|[(e & t & i & E & ->)|[E|(q & t & E & ->)]]]].
      * apply find_prefix_In in E as [Hin _]. vm_compute in Hin. split_in Hin; morphemes_ok.
      * apply find_prefix_In in E as [Hin _]. vm_compute in Hin. split_in Hin; morphemes_ok.
      * apply find_extension_In in E as [Hin _]. vm_compute in Hin. split_in Hin; morphemes_ok.
      * apply verb_term_some in E as (root & _ & ->). morphemes_ok.
      * apply find_equal_In in E as [Hin _]. vm_compute in Hin. split_in Hin; morphemes_ok.
    + intros rem ms _ H. apply step_Halt_cases in H as ->. morphemes_ok.
    + split; discriminate.
Qed.

Lemma C4_umu_class3_shadows_class1_witness :
  exists rest, analyzeWord zulu "umuntu" =
    mkMorpheme "u" (Tag "NPrePre3") :: mkMorpheme "mu" (Tag "BPre3") :: rest.
Proof.
  apply (proj1 (proj2 (proj2 C4_umu_class3_shadows_class1)) "umuntu");
    vm_compute; reflexivity.
Defined.

(** C9: for a non-empty word every morpheme of [analyzeWord] has a
    non-empty [morph]. *)
Theorem C9_morphs_nonempty : forall w,
  w <> EmptyString ->
  Forall (fun m => morph m <> EmptyString) (analyzeWord zulu w).
Proof.
  intros w Hw. apply analyzeWord_Forall.
  - intros ms Hf. apply fast_path_cases in Hf as [->|[(v & _ & ->)| ->]];
      repeat constructor; cbn; try exact Hw.
    intros H. apply (f_equal String.length) in H.
    rewrite toLowerCase_length in H. destruct w; [contradiction|discriminate].
  - intros rem ms r Hr H.
    apply step_Next_cases in H
      as [(k & info & E & ->)|[(k & t & E & ->)|[(e & t & i & E & ->)|[E|(q & t & E & ->)]]]].
    + apply find_prefix_In in E as [Hin _].
      pose proof (nonempty_keys_In _ _ _ zulu_nouns_nonempty Hin) as Hk.
      destruct k as [|c k]; [contradiction|]. rewrite noun_emit_cons.
      constructor; [cbn; discriminate|].
      destruct (Nat.ltb 1 _); [|constructor].
      destruct (getNounBasicPrefix (nclass info)) as [bp|] eqn:Eb; [|constructor].
      repeat constructor. exact (getNounBasicPrefix_nonempty _ _ Eb).
    + apply find_prefix_In in E as [Hin _].
      repeat constructor. exact (nonempty_keys_In _ _ _ zulu_commons_nonempty Hin).
    + apply find_extension_In in E as (Hin & _ & Hi).
      repeat constructor; cbn.
      * destruct rem as [|a s]; [contradiction|]. destruct i as [|i]; [lia|]. discriminate.
      * exact (nonempty_keys_In _ _ _ (eq_refl : nonempty_keys (verbExtensions zulu) = true) Hin).
    + apply verb_term_some in E as (root & Hroot & ->).
      repeat constructor; cbn; [exact Hroot|discriminate].
    + apply find_equal_In in E as [_ ->]. repeat constructor. exact Hr.
  - intros rem ms Hr H. apply step_Halt_cases in H as ->. repeat constructor. exact Hr.
  - exact Hw.
Qed.

Lemma C9_morphs_nonempty_witness :
  Forall (fun m => morph m <> EmptyString) (analyzeWord zulu "ukubona").
Proof. apply C9_morphs_nonempty. discriminate. Defined.


(** C10: [getNounBasicPrefix] gives a non-empty (truthy) string for each
    of the 13 declared classes; every noun-prefix entry has one of these
    classes and a pattern longer than one character, so whenever the
    noun-prefix rule fires exactly two morphemes are emitted. *)
Theorem C10_basic_prefix_defined :
  (forall c, In c declared_noun_classes ->
     exists bp, getNounBasicPrefix c = Some bp /\ bp <> EmptyString) /\
  (forall k info, In (k, info) (nounPrefixes zulu) ->
     In (nclass info) declared_noun_classes /\ 1 < String.length k) /\
  (forall rem k info, find_prefix (nounPrefixes zulu) rem = Some (k, info) ->
     exists bp, getNounBasicPrefix (nclass info) = Some bp /\
       step zulu rem =
         Next [mkMorpheme (substring_to 1 k) (Tag (ntype info));
               mkMorpheme bp (Tag ("BPre" ++ nat_to_string (nclass info)))]
              (substring_from (String.length k) rem)).
Proof.
  assert (Hcls : forall c, In c declared_noun_classes ->
            exists bp, getNounBasicPrefix c = Some bp /\ bp <> EmptyString).
  { intros c Hc. vm_compute in Hc.
    repeat (destruct Hc as [<-|Hc]; [eexists; split; [reflexivity|discriminate]|]).
    contradiction. }
  assert (Hent : forall k info, In (k, info) (nounPrefixes zulu) ->
            In (nclass info) declared_noun_classes /\ 1 < String.length k).
  { intros k info Hin. vm_compute in Hin. split_in Hin; split; vm_compute; auto 20. }
  split; [exact Hcls|]. split; [exact Hent|].
  intros rem k info E.
  destruct (find_prefix_In _ _ _ _ E) as [Hin _].
  destruct (Hent _ _ Hin) as [Hc Hk].
  destruct (Hcls _ Hc) as (bp & Hbp & Hne).
  exists bp. split; [exact Hbp|].
  unfold step. rewrite E. unfold noun_emit.
  apply Nat.ltb_lt in Hk. rewrite Hk, Hbp.
  unfold truthy. destruct (String.eqb bp "") eqn:Eb;
    [apply String.eqb_eq in Eb; contradiction|reflexivity].
Qed.

Lemma C10_basic_prefix_defined_witness :
  (exists bp, getNounBasicPrefix 9 = Some bp /\ bp <> EmptyString) /\
  exists bp, getNounBasicPrefix 9 = Some bp /\
    step zulu "inja" =
      Next [mkMorpheme "i" (Tag "NPrePre9"); mkMorpheme bp (Tag "BPre9")] "ja".
Proof.
  split.
  - apply (proj1 C10_basic_prefix_defined 9). vm_compute. auto 20.
  - apply (proj2 (proj2 C10_basic_prefix_defined) "inja" "in" (mkNounInfo 9 "NPrePre9")).
    vm_compute. reflexivity.
Defined.

(** C8: [analyzeWord] is deterministic and stateless: the method leaves
    the analyzer unchanged, so after any sequence of earlier calls a call
    on [w] returns what a first call on [w] returns. *)
Theorem C8_analyzeWord_deterministic : forall az w earlier,
  let az' := fold_left (fun a w' => snd (analyzeWord_st a w')) earlier az in
  az' = az /\ fst (analyzeWord_st az' w) = fst (analyzeWord_st az w) /\
  fst (analyzeWord_st (snd (analyzeWord_st az w)) w) = fst (analyzeWord_st az w).
Proof.
  intros az w earlier az'.
  assert (H : az' = az).
  { unfold az'. clear az'. induction earlier as [|w' earlier IH]; [reflexivity|].
    simpl. exact IH. }
  split; [exact H|]. rewrite H. split; reflexivity.
Qed.

(** C7: [analyzeText] splits its input on newline, keeps the lines that
    have a non-white-space character, numbers them 1, 2, ... counting only
    kept lines, splits each into its maximal runs of non-white-space
    characters, and renders [<LINE n>] followed directly by the
    space-joined words, each word being its [morph[TAG]] segments joined
    by [-]; the rendered lines are joined by newline.  On
    ["jongo.\n\nAfrika"] this gives exactly the two blocks [<LINE 1>] and
    [<LINE 2>]. *)
Theorem C7_analyzeText_format :
  (forall az text, analyzeText az text = analyzeText_spec az text) /\
  analyzeText zulu ("jongo." ++ newline ++ newline ++ "Afrika") =
    "<LINE 1>jongo.[NStem]" ++ newline ++ "<LINE 2>Afrika[ProperName]".
Proof.
  split; [|vm_compute; reflexivity].
  intros az text. unfold analyzeText, analyzeText_spec.
  rewrite (filter_ext (fun line => negb (String.eqb (trim line) ""))
                      (fun line => negb (blank line)))
    by (intros line; rewrite trim_empty_blank; reflexivity).
  f_equal. apply mapi_from_ext_in. intros j line Hin.
  apply filter_In in Hin as [_ Hb]. apply negb_true_iff in Hb.
  rewrite split_ws_trim by exact Hb. rewrite Nat.add_1_r. reflexivity.
Qed.

(** * The rest of the server *)

(** ** [path.extname] *)

Lemma list_ascii_app : forall a b,
  list_ascii_of_string (a ++ b) = (list_ascii_of_string a ++ list_ascii_of_string b)%list.
Proof. induction a as [|c a IH]; intros b; simpl; [reflexivity|]. f_equal. apply IH. Qed.

Lemma length_list_ascii : forall s, List.length (list_ascii_of_string s) = String.length s.
Proof. induction s; simpl; auto. Qed.

Lemma forallb_rev : forall {A} (f : A -> bool) l, forallb f (rev l) = forallb f l.
Proof.
  intros A f l. induction l as [|x l IH]; simpl; [reflexivity|].
  rewrite forallb_app, IH. simpl. rewrite andb_true_r, andb_comm. reflexivity.
Qed.

Lemma append_empty_r : forall s, s ++ "" = s.
Proof. induction s; simpl; f_equal; auto. Qed.

Lemma substring_from_app : forall a b, substring_from (String.length a) (a ++ b) = b.
Proof. induction a; simpl; auto. Qed.

Lemma substring_to_app : forall a b, substring_to (String.length a) (a ++ b) = a.
Proof. induction a; simpl; intros; f_equal; auto. Qed.

(** Characters that are neither a slash nor a dot leave the scan state
    alone once the end is fixed and no dot is seen. *)
Lemma extname_loop_skip : forall cs rest st,
  forallb (fun c => negb (Ascii.eqb c "/"%char) && negb (Ascii.eqb c "."%char)) cs = true ->
  endPos st <> None -> startDot st = None ->
  extname_loop (cs ++ rest)%list st = extname_loop rest st.
Proof.
  induction cs as [|c cs IH]; intros rest st H He Hs; [reflexivity|].
  simpl in H. apply andb_prop in H as [Hc H]. apply andb_prop in Hc as [H1 H2].
  apply negb_true_iff in H1, H2.
  destruct st as [sd sp ep msl pd]; simpl in He, Hs; subst sd.
  destruct ep as [e|]; [|contradiction].
  simpl. rewrite H1, H2. apply IH; simpl; [exact H|exact He|reflexivity].
Qed.

(** Before the last dot: once a character is scanned, [preDotState] is
    no longer 0. *)
Lemma extname_loop_base : forall cs st sd e,
  forallb (fun c => negb (Ascii.eqb c "/"%char)) cs = true ->
  startDot st = Some sd -> endPos st = Some e ->
  startDot (extname_loop cs st) = Some sd /\ endPos (extname_loop cs st) = Some e /\
  ((preDotState st <> 0)%Z \/ cs <> [] -> (preDotState (extname_loop cs st) <> 0)%Z).
Proof.
  induction cs as [|c cs IH]; intros st sd e H Hs He.
  - split; [exact Hs|]. split; [exact He|]. intros [H0|H0]; [exact H0|contradiction].
  - simpl in H. apply andb_prop in H as [Hc H]. apply negb_true_iff in Hc.
    destruct st as [sd0 sp ep msl pd]; simpl in Hs, He; subst sd0 ep.
    simpl. rewrite Hc.
    destruct (Ascii.eqb c "."%char).
    + destruct (negb (Z.eqb pd 1)) eqn:Ep.
      * destruct (IH (mkES (Some sd) sp (Some e) msl 1) sd e H eq_refl eq_refl) as (A & B & C).
        split; [exact A|]. split; [exact B|]. intros _. apply C. left. simpl. discriminate.
      * apply negb_false_iff, Z.eqb_eq in Ep. subst pd.
        destruct (IH (mkES (Some sd) sp (Some e) msl 1) sd e H eq_refl eq_refl) as (A & B & C).
        split; [exact A|]. split; [exact B|]. intros _. apply C. left. simpl. discriminate.
    + destruct (IH (mkES (Some sd) sp (Some e) msl (-1)) sd e H eq_refl eq_refl) as (A & B & C).
      split; [exact A|]. split; [exact B|]. intros _. apply C. left. simpl. discriminate.
Qed.

Lemma extname_loop_nodot : forall cs st,
  forallb (fun c => negb (Ascii.eqb c "."%char)) cs = true -> startDot st = None ->
  startDot (extname_loop cs st) = None.
Proof.
  induction cs as [|c cs IH]; intros st H Hs; [exact Hs|].
  simpl in H. apply andb_prop in H as [Hc H]. apply negb_true_iff in Hc.
  destruct st as [sd sp ep msl pd]; simpl in Hs; subst sd. simpl.
  destruct (Ascii.eqb c "/"%char).
  - destruct msl; simpl; [apply IH; [exact H|reflexivity]|reflexivity].
  - rewrite Hc. destruct ep; apply IH; auto.
Qed.

Lemma extname_nodot : forall name,
  forallb (fun c => negb (Ascii.eqb c "."%char)) (list_ascii_of_string name) = true ->
  extname name = "".
Proof.
  intros name H. unfold extname.
  rewrite (extname_loop_nodot _ (mkES None 0 None true 0%Z)
             ltac:(rewrite forallb_rev; exact H) eq_refl). reflexivity.
Qed.

Lemma extname_base_ext : forall base ext,
  base <> "" -> ext <> "" ->
  forallb (fun c => negb (Ascii.eqb c "/"%char)) (list_ascii_of_string base) = true ->
  forallb (fun c => negb (Ascii.eqb c "/"%char) && negb (Ascii.eqb c "."%char))
    (list_ascii_of_string ext) = true ->
  extname (base ++ "." ++ ext) = "." ++ ext.
Proof.
  intros base ext Hb He Hsb Hse. unfold extname.
  rewrite !list_ascii_app, !rev_app_distr. simpl (rev (list_ascii_of_string ".")).
  rewrite <- app_assoc. simpl ((["."%char] ++ _)%list).
  rewrite <- forallb_rev in Hse.
  destruct (rev (list_ascii_of_string ext)) as [|c cs] eqn:Er.
  { destruct ext; [contradiction|]. simpl in Er. destruct (rev _); discriminate. }
  simpl in Hse. apply andb_prop in Hse as [Hc Hcs]. apply andb_prop in Hc as [H1 H2].
  apply negb_true_iff in H1, H2.
  rewrite <- app_comm_cons. cbn [extname_loop]. rewrite H1. cbn [negb matchedSlash endPos startDot]. rewrite H2. cbn [startDot startPart preDotState].
  rewrite extname_loop_skip by first [exact Hcs | simpl; discriminate | reflexivity].
  cbn [extname_loop]. change (Ascii.eqb "." "/")%char with false.
  change (Ascii.eqb "." ".")%char with true. cbn [negb matchedSlash endPos startDot startPart preDotState].
  rewrite <- forallb_rev in Hsb.
  destruct (extname_loop_base (rev (list_ascii_of_string base))
              (mkES (Some (List.length (rev (list_ascii_of_string base)))) 0
                 (Some (List.length (cs ++ "."%char :: rev (list_ascii_of_string base)) + 1)) false 0%Z)
              _ _ Hsb eq_refl eq_refl) as (A & B & C).
  rewrite A, B.
  assert (Hne : rev (list_ascii_of_string base) <> []).
  { destruct base; [contradiction|]. simpl. intros Hn. apply app_eq_nil in Hn as [_ Hn]. discriminate. }
  specialize (C (or_intror Hne)).
  apply Z.eqb_neq in C. rewrite C. simpl orb.
  rewrite length_app. simpl List.length. rewrite !length_rev, length_list_ascii.
  assert (Hlen : List.length cs + 1 = String.length ext).
  { rewrite <- length_list_ascii, <- (length_rev (list_ascii_of_string ext)), Er. simpl. lia. }
  replace (Nat.eqb (String.length base) (List.length cs + S (String.length base) + 1 - 1)) with false
    by (symmetry; apply Nat.eqb_neq; lia).
  rewrite andb_false_r.
  replace (List.length cs + S (String.length base) + 1 - String.length base)
    with (String.length ("." ++ ext)) by (simpl; lia).
  rewrite substring_from_app.
  pose proof (substring_to_app ("." ++ ext) "") as Hs. rewrite append_empty_r in Hs. exact Hs.
Qed.

Lemma extname_dotfile : forall ext,
  forallb (fun c => negb (Ascii.eqb c "/"%char) && negb (Ascii.eqb c "."%char))
    (list_ascii_of_string ext) = true ->
  extname ("." ++ ext) = "".
Proof.
  intros ext Hse. unfold extname. change ("." ++ ext) with (String "." ext).
  cbn [list_ascii_of_string rev].
  rewrite <- forallb_rev in Hse.
  destruct (rev (list_ascii_of_string ext)) as [|c cs] eqn:Er; [reflexivity|].
  simpl in Hse. apply andb_prop in Hse as [Hc Hcs]. apply andb_prop in Hc as [H1 H2].
  apply negb_true_iff in H1, H2.
  rewrite <- app_comm_cons. cbn [extname_loop]. rewrite H1.
  cbn [negb matchedSlash endPos startDot]. rewrite H2. cbn [startDot startPart preDotState].
  rewrite extname_loop_skip by first [exact Hcs | simpl; discriminate | reflexivity].
  reflexivity.
Qed.

Lemma toLowerCase_app : forall a b, toLowerCase (a ++ b) = toLowerCase a ++ toLowerCase b.
Proof. induction a; simpl; intros; f_equal; auto. Qed.

Lemma lower_char_dot : lower_char "."%char = "."%char.
Proof. reflexivity. Qed.

(** ** [TextExtractor.extractFromFile] *)

(** A file name without a dot, or a dot file such as [.txt], has no
    extension: the upload is rejected as an unsupported type. *)
Theorem extractFromFile_no_extension :
  forall (Buffer : Type) (utf8_decode : Buffer -> string) pdf_text mammoth_text json_pretty
         (buffer : Buffer) (filename mimetype : string),
  (forallb (fun c => negb (Ascii.eqb c "."%char)) (list_ascii_of_string filename) = true \/
   exists ext, filename = "." ++ ext /\
     forallb (fun c => negb (Ascii.eqb c "/"%char) && negb (Ascii.eqb c "."%char))
       (list_ascii_of_string ext) = true) ->
  extractFromFile utf8_decode pdf_text mammoth_text json_pretty buffer filename mimetype =
  Err ("Failed to extract text from " ++ filename ++ ": Unsupported file type: ").
Proof.
  intros Buffer utf8_decode pdf_text mammoth_text json_pretty buffer filename mimetype H.
  assert (He : extname filename = "").
  { destruct H as [H|[ext [-> H]]]; [apply extname_nodot|apply extname_dotfile]; exact H. }
  unfold extractFromFile. rewrite He. reflexivity.
Qed.

Lemma extractFromFile_no_extension_witness :
  (forallb (fun c => negb (Ascii.eqb c "."%char)) (list_ascii_of_string "README") = true \/
   exists ext, "README" = "." ++ ext /\
     forallb (fun c => negb (Ascii.eqb c "/"%char) && negb (Ascii.eqb c "."%char))
       (list_ascii_of_string ext) = true) /\
  extractFromFile (fun s : string => s) (fun _ => Err "pdf") (fun _ => Err "doc")
    (fun _ => Err "json") "contents" "README" "text/plain" =
  Err ("Failed to extract text from " ++ "README" ++ ": Unsupported file type: ").
Proof.
  assert (H : forallb (fun c => negb (Ascii.eqb c "."%char)) (list_ascii_of_string "README") = true \/
   exists ext, "README" = "." ++ ext /\
     forallb (fun c => negb (Ascii.eqb c "/"%char) && negb (Ascii.eqb c "."%char))
       (list_ascii_of_string ext) = true) by (left; vm_compute; reflexivity).
  split; [exact H|].
  apply (extractFromFile_no_extension string (fun s => s) (fun _ => Err "pdf") (fun _ => Err "doc")
           (fun _ => Err "json") "contents" "README" "text/plain" H).
Defined.

(** The extension is compared after lower-casing: [notes.TXT] and
    [data.Csv] are decoded as UTF-8 text, and this never fails. *)
Theorem extractFromFile_text_any_case :
  forall (Buffer : Type) (utf8_decode : Buffer -> string) pdf_text mammoth_text json_pretty
         (buffer : Buffer) (base ext mimetype : string),
  base <> "" ->
  forallb (fun c => negb (Ascii.eqb c "/"%char)) (list_ascii_of_string base) = true ->
  forallb (fun c => negb (Ascii.eqb c "/"%char) && negb (Ascii.eqb c "."%char))
    (list_ascii_of_string ext) = true ->
  toLowerCase ext = "txt" \/ toLowerCase ext = "csv" ->
  extractFromFile utf8_decode pdf_text mammoth_text json_pretty buffer (base ++ "." ++ ext) mimetype =
  Ok (utf8_decode buffer).
Proof.
  intros Buffer utf8_decode pdf_text mammoth_text json_pretty buffer base ext mimetype
    Hb Hsb Hse Hl.
  assert (Hne : ext <> "") by (intros ->; destruct Hl as [E|E]; discriminate E).
  unfold extractFromFile. rewrite (extname_base_ext base ext Hb Hne Hsb Hse).
  change ("." ++ ext) with (String "." ext). cbn [toLowerCase]. rewrite lower_char_dot.
  destruct Hl as [E|E]; rewrite E; reflexivity.
Qed.

Lemma extractFromFile_text_any_case_witness :
  "notes" <> "" /\
  forallb (fun c => negb (Ascii.eqb c "/"%char)) (list_ascii_of_string "notes") = true /\
  forallb (fun c => negb (Ascii.eqb c "/"%char) && negb (Ascii.eqb c "."%char))
    (list_ascii_of_string "TXT") = true /\
  (toLowerCase "TXT" = "txt" \/ toLowerCase "TXT" = "csv") /\
  extractFromFile (fun s : string => s) (fun _ => Err "pdf") (fun _ => Err "doc")
    (fun _ => Err "json") "hello" ("notes" ++ "." ++ "TXT") "text/plain" = Ok "hello".
Proof.
  split; [discriminate|]. split; [reflexivity|]. split; [reflexivity|].
  split; [left; reflexivity|].
  apply (extractFromFile_text_any_case string (fun s => s) (fun _ => Err "pdf") (fun _ => Err "doc")
           (fun _ => Err "json") "hello" "notes" "TXT" "text/plain");
    [discriminate|reflexivity|reflexivity|left; reflexivity].
Defined.

(** Any other extension is rejected; the message names the file and the
    lower-cased extension. *)
Theorem extractFromFile_unsupported :
  forall (Buffer : Type) (utf8_decode : Buffer -> string) pdf_text mammoth_text json_pretty
         (buffer : Buffer) (base ext mimetype : string),
  base <> "" -> ext <> "" ->
  forallb (fun c => negb (Ascii.eqb c "/"%char)) (list_ascii_of_string base) = true ->
  forallb (fun c => negb (Ascii.eqb c "/"%char) && negb (Ascii.eqb c "."%char))
    (list_ascii_of_string ext) = true ->
  ~ In (toLowerCase ext) ["txt"; "pdf"; "doc"; "docx"; "json"; "csv"] ->
  extractFromFile utf8_decode pdf_text mammoth_text json_pretty buffer (base ++ "." ++ ext) mimetype =
  Err ("Failed to extract text from " ++ (base ++ "." ++ ext) ++
       ": Unsupported file type: ." ++ toLowerCase ext).
Proof.
  intros Buffer utf8_decode pdf_text mammoth_text json_pretty buffer base ext mimetype
    Hb Hne Hsb Hse Hn.
  unfold extractFromFile. rewrite (extname_base_ext base ext Hb Hne Hsb Hse).
  change ("." ++ ext) with (String "." ext). cbn [toLowerCase]. rewrite lower_char_dot.
  repeat match goal with
  | |- context [String.eqb (String "."%char ?L) ?lit] =>
      destruct (String.eqb_spec (String "."%char L) lit) as [E|_];
        [exfalso; apply Hn; injection E as E; rewrite E; simpl; tauto|]
  end.
  reflexivity.
Qed.

Lemma extractFromFile_unsupported_witness :
  "slides" <> "" /\ "PPTX" <> "" /\
  forallb (fun c => negb (Ascii.eqb c "/"%char)) (list_ascii_of_string "slides") = true /\
  forallb (fun c => negb (Ascii.eqb c "/"%char) && negb (Ascii.eqb c "."%char))
    (list_ascii_of_string "PPTX") = true /\
  ~ In (toLowerCase "PPTX") ["txt"; "pdf"; "doc"; "docx"; "json"; "csv"] /\
  extractFromFile (fun s : string => s) (fun _ => Err "pdf") (fun _ => Err "doc")
    (fun _ => Err "json") "bytes" ("slides" ++ "." ++ "PPTX") "application/octet-stream" =
  Err ("Failed to extract text from " ++ ("slides" ++ "." ++ "PPTX") ++
       ": Unsupported file type: ." ++ toLowerCase "PPTX").
Proof.
  assert (Hn : ~ In (toLowerCase "PPTX") ["txt"; "pdf"; "doc"; "docx"; "json"; "csv"]).
  { vm_compute. intros H. repeat destruct H as [H|H]; try discriminate H; exact H. }
  split; [discriminate|]. split; [discriminate|]. split; [reflexivity|]. split; [reflexivity|].
  split; [exact Hn|].
  apply (extractFromFile_unsupported string (fun s => s) (fun _ => Err "pdf") (fun _ => Err "doc")
           (fun _ => Err "json") "bytes" "slides" "PPTX" "application/octet-stream");
    [discriminate|discriminate|reflexivity|reflexivity|exact Hn].
Defined.

(** ** The request handlers *)

Lemma fold_push_map : forall {A B} (g : A -> B) l acc,
  fold_left (fun rs x => (rs ++ [g x])%list) l acc = (acc ++ map g l)%list.
Proof.
  intros A B g l; induction l as [|x l IH]; intros acc; simpl; [symmetry; apply app_nil_r|].
  rewrite IH, <- app_assoc. reflexivity.
Qed.

Lemma fold_sum : forall {A} (f : A -> nat) l a,
  fold_left (fun s r => s + f r) l a = a + list_sum (map f l).
Proof.
  intros A f l; induction l as [|x l IH]; intros a; simpl; [lia|]. rewrite IH. lia.
Qed.

Lemma status_partition : forall rs,
  List.length (filter (fun r => String.eqb (fr_status r) "completed") rs) +
  List.length (filter (fun r => String.eqb (fr_status r) "failed") rs) = List.length rs.
Proof.
  induction rs as [|r rs IH]; simpl; [reflexivity|].
  destruct r; simpl; lia.
Qed.


Lemma length_cons_hd : forall c l, l <> [] -> List.length (cons_hd c l) = List.length l.
Proof. intros c [|x l] H; [contradiction|reflexivity]. Qed.

Lemma length_split_at_each : forall p l,
  List.length (split_at_each p l) = S (List.length (filter p l)).
Proof.
  intros p l; induction l as [|c l IH]; simpl; [reflexivity|].
  destruct (p c); simpl; [rewrite IH; reflexivity|].
  rewrite length_cons_hd by apply split_at_each_not_nil. exact IH.
Qed.

(** [text.split('\n').length] is one more than the number of newline
    characters: a text ending in a newline counts an extra empty line. *)
Theorem line_count_newlines : forall text,
  line_count text = S (List.length (filter (Ascii.eqb "010"%char) (list_ascii_of_string text))).
Proof.
  intros text. unfold line_count, split_nl. rewrite length_map. apply length_split_at_each.
Qed.

Lemma map_b_index : forall f g h l i,
  map b_index (mapi_from (fun index text => mkBatchResult index text (f text) (g text) (h text)) i l) =
  seq i (List.length l).
Proof. intros f g h l; induction l as [|x l IH]; intros i; simpl; [reflexivity|]. rewrite IH. reflexivity. Qed.

Lemma map_b_original : forall f g h l i,
  map b_original_text
    (mapi_from (fun index text => mkBatchResult index text (f text) (g text) (h text)) i l) = l.
Proof. intros f g h l; induction l as [|x l IH]; intros i; simpl; [reflexivity|]. rewrite IH. reflexivity. Qed.

Lemma map_b_line_count : forall f g h l i,
  map b_line_count
    (mapi_from (fun index text => mkBatchResult index text (f text) (g text) (h text)) i l) = map h l.
Proof. intros f g h l; induction l as [|x l IH]; intros i; simpl; [reflexivity|]. rewrite IH. reflexivity. Qed.

(** [POST /api/process-batch]: the results keep the input order with
    indices [0 .. n-1], and [total_lines] is the number of texts plus the
    number of newline characters in all of them. *)
Theorem process_batch_totals : forall az texts,
  match process_batch az (Some texts) with
  | BatchOk results total_texts total_words total_lines =>
      total_texts = List.length texts /\
      map b_index results = seq 0 total_texts /\
      map b_original_text results = texts /\
      total_lines = total_texts +
        list_sum (map (fun t => List.length (filter (Ascii.eqb "010"%char) (list_ascii_of_string t)))
                    texts)
  | BatchError _ _ => False
  end.
Proof.
  intros az texts. unfold process_batch.
  split; [reflexivity|].
  split; [apply (map_b_index (analyzeText az) word_count line_count)|].
  split; [apply (map_b_original (analyzeText az) word_count line_count)|].
  rewrite fold_sum, (map_b_line_count (analyzeText az) word_count line_count). simpl.
  induction texts as [|t ts IH]; simpl; [reflexivity|].
  rewrite IH, line_count_newlines. simpl. lia.
Qed.

Lemma split_ws_go_all_ws : forall r, forallb is_ws r = true -> split_ws_go r [] true = [[]].
Proof.
  induction r as [|c r IH]; simpl; intros H; [reflexivity|].
  apply andb_prop in H as [Hc H]. rewrite Hc. apply IH, H.
Qed.

(** [text.split(/\s+/).length] counts the words exactly when the text
    starts and ends with a non-white-space character. *)
Theorem word_count_trimmed : forall text c r,
  list_ascii_of_string text = c :: r -> is_ws c = false -> ends_nonws (c :: r) = true ->
  word_count text = List.length (words_spec text).
Proof.
  intros text c r Ht Hc He. unfold word_count, split_ws, words_spec. rewrite !length_map, Ht.
  assert (Hall : Forall (fun x => nonnil x = true) (split_ws_go (c :: r) [] false)).
  { simpl. rewrite Hc. simpl app. apply split_ws_go_nonnil; try discriminate.
    intros Hne. destruct r; [contradiction|exact He]. }
  rewrite <- (filter_all_true _ _ Hall).
  rewrite split_ws_go_filter by discriminate. rewrite filter_app_hd_nil. reflexivity.
Qed.

Lemma word_count_trimmed_witness :
  list_ascii_of_string "sawubona baba" = ["s"; "a"; "w"; "u"; "b"; "o"; "n"; "a"; " "; "b"; "a"; "b"; "a"]%char /\
  is_ws "s"%char = false /\
  ends_nonws ["s"; "a"; "w"; "u"; "b"; "o"; "n"; "a"; " "; "b"; "a"; "b"; "a"]%char = true /\
  word_count "sawubona baba" = List.length (words_spec "sawubona baba").
Proof.
  split; [reflexivity|]. split; [reflexivity|]. split; [reflexivity|].
  apply (word_count_trimmed "sawubona baba" "s"%char
           ["a"; "w"; "u"; "b"; "o"; "n"; "a"; " "; "b"; "a"; "b"; "a"]%char);
    reflexivity.
Defined.

(** Edge cases: the empty text counts one word, and a text made only of
    white space (a lone newline, say) counts two. *)
Theorem word_count_blank : forall text,
  blank text = true -> word_count text = if String.eqb text "" then 1 else 2.
Proof.
  intros [|c r] H; [reflexivity|].
  unfold blank in H. simpl in H. apply andb_prop in H as [Hc H].
  unfold word_count, split_ws. simpl. rewrite Hc, split_ws_go_all_ws by exact H. reflexivity.
Qed.

Lemma word_count_blank_witness :
  blank newline = true /\ word_count newline = 2.
Proof. split; [reflexivity|]. apply (word_count_blank newline). reflexivity. Defined.

(** ** Segmentation loses no character *)

Lemma str_app_assoc : forall a b c, a ++ (b ++ c) = (a ++ b) ++ c.
Proof. induction a; simpl; intros; f_equal; auto. Qed.

Lemma concat_morphs_app : forall a b,
  concat_morphs (a ++ b)%list = concat_morphs a ++ concat_morphs b.
Proof.
  induction a as [|m a IH]; intros b; simpl; [reflexivity|].
  rewrite IH. apply str_app_assoc.
Qed.

Lemma endsWith_char_split : forall s c,
  endsWith_char s c = true -> s = substring_to (String.length s - 1) s ++ String c "".
Proof.
  induction s as [|d r IH]; intros c H; [discriminate|].
  destruct r as [|e r'].
  - simpl in H. apply Ascii.eqb_eq in H. subst. reflexivity.
  - change (endsWith_char (String e r') c = true) in H.
    specialize (IH c H). simpl String.length in *.
    replace (S (S (String.length r')) - 1) with (S (S (String.length r') - 1)) by lia.
    simpl substring_to. simpl append. f_equal. exact IH.
Qed.

(** Each noun prefix of the table is its first letter followed by the
    basic prefix of its class. *)
Lemma noun_emit_concat : forall k info,
  In (k, info) (nounPrefixes zulu) -> concat_morphs (noun_emit k info) = k.
Proof. intros k info H. enum_in H; reflexivity. Qed.

Lemma step_concat : forall rem ms r,
  step zulu rem = Next ms r -> rem = concat_morphs ms ++ r.
Proof.
  intros rem ms r H. unfold step in H.
  destruct (find_prefix (nounPrefixes zulu) rem) as [[k info]|] eqn:E1.
  { injection H as <- <-. destruct (find_prefix_In _ _ _ _ E1) as [Hin Hp].
    rewrite noun_emit_concat by exact Hin. apply prefix_split, Hp. }
  destruct (find_prefix (commonMorphemes zulu) rem) as [[k t]|] eqn:E2.
  { injection H as <- <-. destruct (find_prefix_In _ _ _ _ E2) as [_ Hp].
    simpl. rewrite append_empty_r. apply prefix_split, Hp. }
  destruct (find_extension (verbExtensions zulu) rem) as [[[e t] i]|] eqn:E3.
  { injection H as <- <-. destruct (find_extension_In _ _ _ _ _ E3) as (_ & Hi & _).
    simpl. rewrite append_empty_r, <- str_app_assoc. apply indexOf_split, Hi. }
  destruct (verb_term rem) as [ms'|] eqn:E4.
  { injection H as <- <-. unfold verb_term in E4.
    destruct (endsWith_char rem "a" && Nat.ltb 1 (String.length rem)) eqn:Ea; [|discriminate].
    destruct (Nat.ltb 0 _); [|discriminate]. injection E4 as <-.
    apply andb_prop in Ea as [Ea _]. simpl. rewrite append_empty_r.
    apply endsWith_char_split, Ea. }
  destruct (find_equal (quantifiers zulu) rem) as [[q t]|] eqn:E5.
  { injection H as <- <-. destruct (find_equal_In _ _ _ _ E5) as [_ ->].
    simpl. rewrite !append_empty_r. reflexivity. }
  discriminate.
Qed.

Lemma run_loop_concat : forall n rem acc out,
  run_loop zulu n rem acc = Some out -> concat_morphs out = concat_morphs acc ++ rem.
Proof.
  induction n as [|n IH]; intros rem acc out H; destruct rem as [|a s]; simpl in H;
    try discriminate.
  - injection H as <-. symmetry. apply append_empty_r.
  - injection H as <-. symmetry. apply append_empty_r.
  - destruct (step zulu (String a s)) as [ms r|ms] eqn:E.
    + rewrite (IH _ _ _ H), concat_morphs_app, <- str_app_assoc, (step_concat _ _ _ E).
      reflexivity.
    + injection H as <-. apply step_Halt_cases in E. subst ms.
      rewrite concat_morphs_app. simpl. rewrite append_empty_r. reflexivity.
Qed.

Lemma lower_char_punct : forall w,
  is_punct w = true -> toLowerCase w = w.
Proof.
  intros [|c [|d r]] H; try discriminate. unfold is_punct in H.
  apply existsb_exists in H as [x [Hx Hc]]. apply Ascii.eqb_eq in Hc. subst c.
  simpl in Hx. repeat destruct Hx as [<-|Hx]; try contradiction; reflexivity.
Qed.

Lemma toLowerCase_empty : forall w, toLowerCase w = "" -> w = "".
Proof. intros [|c w] H; [reflexivity|discriminate]. Qed.

(** Apart from a word taken as a proper name (kept as written), the
    morphemes of a word concatenate back to the word in lower case: every
    rule of the loop, the vocabulary and the punctuation path cut the
    word without dropping or adding a character. *)
Theorem analyzeWord_concat : forall w,
  analyzeWord zulu w = [mkMorpheme w (Tag "ProperName")] \/
  concat_morphs (analyzeWord zulu w) = toLowerCase w.
Proof.
  intros w. unfold analyzeWord, analyzeWord_opt.
  destruct (fast_path zulu w) as [ms|] eqn:Ef.
  - unfold fast_path, proper_name_path in Ef.
    destruct (is_punct w) eqn:Ep.
    { injection Ef as <-. right. simpl. rewrite append_empty_r, lower_char_punct by exact Ep.
      reflexivity. }
    destruct (obj_read (vocabulary zulu) (toLowerCase w)) as [v|];
      [destruct (truthy v); [injection Ef as <-; right; apply append_empty_r|]|];
      (destruct (_ && _); [injection Ef as <-; left; reflexivity|discriminate]).
  - right. destruct (zulu_run_loop_total (toLowerCase w) []) as [out Hout]. rewrite Hout.
    pose proof (run_loop_concat _ _ _ _ Hout) as Hc. simpl in Hc.
    destruct out as [|m out]; [|exact Hc].
    simpl in Hc. symmetry in Hc. rewrite Hc. apply toLowerCase_empty in Hc. subst w.
    reflexivity.
Qed.

(** ** [lines_processed] of [POST /api/process-text] *)

Lemma no_nl_app : forall a b, no_nl (a ++ b) = no_nl a && no_nl b.
Proof. intros a b. unfold no_nl. rewrite list_ascii_app, forallb_app. reflexivity. Qed.

Lemma no_nl_concat_morphs : forall ms,
  no_nl (concat_morphs ms) = true -> Forall (fun m => no_nl (morph m) = true) ms.
Proof.
  induction ms as [|m ms IH]; simpl; intros H; constructor;
    rewrite no_nl_app in H; apply andb_prop in H as [H1 H2]; auto.
Qed.

Lemma lower_char_nl : forall c, Ascii.eqb (lower_char c) "010"%char = Ascii.eqb c "010"%char.
Proof. intros [[] [] [] [] [] [] [] []]; reflexivity. Qed.

Lemma no_nl_toLowerCase : forall w, no_nl (toLowerCase w) = no_nl w.
Proof.
  induction w as [|c w IH]; [reflexivity|]. unfold no_nl in *. simpl.
  rewrite lower_char_nl, IH. reflexivity.
Qed.

Lemma analyzeWord_morphs_no_nl : forall w,
  no_nl w = true -> Forall (fun m => no_nl (morph m) = true) (analyzeWord zulu w).
Proof.
  intros w Hw. destruct (analyzeWord_concat w) as [-> | H].
  - repeat constructor. exact Hw.
  - apply no_nl_concat_morphs. rewrite H, no_nl_toLowerCase. exact Hw.
Qed.

Lemma table_no_nl : forall (o : jsobj string) k x,
  forallb (fun kv => no_nl (snd kv)) o = true -> In (k, x) o -> no_nl x = true.
Proof.
  intros o k x H Hin. rewrite forallb_forall in H. exact (H (k, x) Hin).
Qed.

Lemma proto_no_nl : forall k,
  existsb (String.eqb k) object_prototype_props = true -> no_nl (tag_to_string (ProtoVal k)) = true.
Proof.
  intros k H. apply existsb_exists in H as [x [Hx Hk]]. apply String.eqb_eq in Hk. subst k.
  vm_compute in Hx. repeat destruct Hx as [<-|Hx]; try contradiction; reflexivity.
Qed.

Lemma nat_to_string_no_nl : forall n, no_nl (nat_to_string n) = true.
Proof.
  intros n. unfold nat_to_string. induction (Nat.to_uint n); simpl; auto.
Qed.

Lemma analyzeWord_tags_no_nl : forall w,
  Forall (fun m => no_nl (tag_to_string (mtag m)) = true) (analyzeWord zulu w).
Proof.
  intros w. apply analyzeWord_Forall.
  - intros ms Hf. unfold fast_path, proper_name_path in Hf.
    destruct (is_punct w); [injection Hf as <-; repeat constructor|].
    destruct (obj_read (vocabulary zulu) (toLowerCase w)) as [v|] eqn:Ev.
    + destruct (truthy v).
      * injection Hf as <-. constructor; [|constructor]. simpl.
        unfold obj_read in Ev. destruct (obj_get (vocabulary zulu) (toLowerCase w)) as [x|] eqn:Eg.
        -- injection Ev as <-. apply obj_get_In in Eg.
           exact (table_no_nl _ _ _ (eq_refl : forallb (fun kv => no_nl (snd kv)) (vocabulary zulu) = true) Eg).
        -- destruct (existsb _ _) eqn:Ep; [injection Ev as <-|discriminate]. apply proto_no_nl, Ep.
      * destruct (_ && _); [injection Hf as <-; repeat constructor|discriminate].
    + destruct (_ && _); [injection Hf as <-; repeat constructor|discriminate].
  - intros rem ms r Hr H.
    apply step_Next_cases in H
      as [(k & info & E & ->)|[(k & t & E & ->)|[(e & t & i & E & ->)|[E|(q & t & E & ->)]]]].
    + apply find_prefix_In in E as [Hin _]. enum_in Hin; vm_compute; repeat constructor.
    + apply find_prefix_In in E as [Hin _]. repeat constructor. simpl.
      exact (table_no_nl _ _ _ (eq_refl : forallb (fun kv => no_nl (snd kv)) (commonMorphemes zulu) = true) Hin).
    + apply find_extension_In in E as (Hin & _ & _). repeat constructor. simpl.
      exact (table_no_nl _ _ _ (eq_refl : forallb (fun kv => no_nl (snd kv)) (verbExtensions zulu) = true) Hin).
    + apply verb_term_some in E as (root & _ & ->). repeat constructor.
    + apply find_equal_In in E as [Hin _]. repeat constructor. simpl.
      exact (table_no_nl _ _ _ (eq_refl : forallb (fun kv => no_nl (snd kv)) (quantifiers zulu) = true) Hin).
  - intros rem ms _ H. apply step_Halt_cases in H as ->. repeat constructor.
  - reflexivity.
Qed.

Lemma join_no_nl : forall sep l,
  no_nl sep = true -> Forall (fun s => no_nl s = true) l -> no_nl (join sep l) = true.
Proof.
  intros sep l Hs Hl. induction Hl as [|x l Hx Hl IH]; [reflexivity|].
  destruct l as [|y l]; [exact Hx|].
  change (join sep (x :: y :: l)) with (x ++ sep ++ join sep (y :: l)).
  rewrite !no_nl_app, Hx, Hs, IH. reflexivity.
Qed.

Lemma format_no_nl : forall w,
  no_nl w = true -> no_nl (formatMorphAnalysis w (analyzeWord zulu w)) = true.
Proof.
  intros w Hw. unfold formatMorphAnalysis. apply join_no_nl; [reflexivity|].
  apply Forall_map.
  pose proof (analyzeWord_morphs_no_nl w Hw) as H1. pose proof (analyzeWord_tags_no_nl w) as H2.
  induction (analyzeWord zulu w) as [|m ms IH]; [constructor|].
  inversion H1; inversion H2; subst. constructor; [|auto].
  rewrite !no_nl_app. simpl. rewrite H3, H7. reflexivity.
Qed.

Lemma split_ws_go_nows : forall s cur sk,
  forallb (fun c => negb (is_ws c)) cur = true ->
  Forall (fun x => forallb (fun c => negb (is_ws c)) x = true) (split_ws_go s cur sk).
Proof.
  induction s as [|c s IH]; intros cur sk H; simpl; [repeat constructor; exact H|].
  destruct (is_ws c) eqn:Ec.
  - destruct sk; [apply IH, H|]. constructor; [exact H|]. apply IH. reflexivity.
  - apply IH. rewrite forallb_app, H. simpl. rewrite Ec. reflexivity.
Qed.

Lemma nows_no_nl : forall l,
  forallb (fun c => negb (is_ws c)) l = true -> no_nl (string_of_list_ascii l) = true.
Proof.
  intros l H. unfold no_nl. rewrite list_ascii_of_string_of_list_ascii.
  rewrite forallb_forall in *. intros c Hc. specialize (H c Hc).
  destruct (Ascii.eqb_spec c "010"%char) as [->|]; [discriminate|reflexivity].
Qed.

Lemma split_ws_no_nl : forall s, Forall (fun w => no_nl w = true) (split_ws s).
Proof.
  intros s. unfold split_ws. apply Forall_map.
  eapply Forall_impl; [|apply (split_ws_go_nows _ [] false eq_refl)].
  intros x Hx. apply nows_no_nl, Hx.
Qed.

Lemma analyzeText_lines_no_nl : forall lines i,
  Forall (fun s => no_nl s = true)
    (mapi_from (fun index line =>
      "<LINE " ++ nat_to_string (index + 1) ++ ">" ++
      join " " (map (fun word => formatMorphAnalysis word (analyzeWord zulu word))
                 (split_ws (trim line)))) i lines).
Proof.
  induction lines as [|l lines IH]; intros i; [constructor|].
  cbn [mapi_from]. constructor; [|apply IH].
  rewrite !no_nl_app, nat_to_string_no_nl. simpl andb.
  apply join_no_nl; [reflexivity|]. apply Forall_map.
  eapply Forall_impl; [|apply split_ws_no_nl]. intros w Hw. apply format_no_nl, Hw.
Qed.

Lemma split_at_each_none : forall p l,
  forallb (fun c => negb (p c)) l = true -> split_at_each p l = [l].
Proof.
  intros p l; induction l as [|c l IH]; simpl; intros H; [reflexivity|].
  apply andb_prop in H as [Hc H]. apply negb_true_iff in Hc. rewrite Hc, IH by exact H.
  reflexivity.
Qed.

Lemma split_at_each_sep : forall p l c m,
  forallb (fun c => negb (p c)) l = true -> p c = true ->
  split_at_each p (l ++ c :: m)%list = l :: split_at_each p m.
Proof.
  intros p l c m; induction l as [|d l IH]; simpl; intros H Hc; [rewrite Hc; reflexivity|].
  apply andb_prop in H as [Hd H]. apply negb_true_iff in Hd. rewrite Hd, IH by assumption.
  reflexivity.
Qed.

Lemma no_nl_forallb : forall s,
  no_nl s = true -> forallb (fun c => negb (Ascii.eqb "010"%char c)) (list_ascii_of_string s) = true.
Proof.
  intros s H. unfold no_nl in H. rewrite forallb_forall in *. intros c Hc.
  rewrite Ascii.eqb_sym. apply H, Hc.
Qed.

(** [join('\n')] followed by [split('\n')] gives back lines free of
    newlines. *)
Lemma split_nl_join : forall l,
  l <> [] -> Forall (fun s => no_nl s = true) l -> split_nl (join newline l) = l.
Proof.
  intros l Hne Hl. induction Hl as [|x l Hx Hl IH]; [contradiction|].
  destruct l as [|y l].
  - unfold split_nl. simpl. rewrite split_at_each_none by (apply no_nl_forallb, Hx).
    simpl. rewrite string_of_list_ascii_of_string. reflexivity.
  - change (join newline (x :: y :: l)) with (x ++ newline ++ join newline (y :: l)).
    unfold split_nl in *. rewrite !list_ascii_app. simpl (list_ascii_of_string newline).
    simpl app at 2. rewrite split_at_each_sep by first [apply no_nl_forallb, Hx | reflexivity].
    simpl map at 1. rewrite string_of_list_ascii_of_string. f_equal. apply IH. discriminate.
Qed.

Lemma length_mapi_from : forall {A B} (f : nat -> A -> B) l i,
  List.length (mapi_from f i l) = List.length l.
Proof. intros A B f l; induction l; simpl; auto. Qed.

(** [POST /api/process-text]: a missing or empty [text] is a 400 error;
    otherwise [lines_processed] is the number of non-blank lines of the
    input, or 1 when there is none (the analysis is then the empty string,
    which [split('\n')] turns into one empty line). *)
Theorem process_text_lines_processed : forall text,
  process_text zulu (Some text) =
  if String.eqb text "" then TextError 400 "No text provided for analysis"
  else TextOk text (analyzeText zulu text)
         (Nat.max 1 (List.length (filter (fun line => negb (blank line)) (split_nl text)))).
Proof.
  intros text. unfold process_text. destruct (String.eqb text ""); [reflexivity|].
  f_equal.
  assert (Hf : filter (fun line => negb (blank line)) (split_nl text) =
               filter (fun line => negb (String.eqb (trim line) "")) (split_nl text)).
  { apply filter_ext. intros line. rewrite trim_empty_blank. reflexivity. }
  rewrite Hf. unfold analyzeText. cbv zeta.
  destruct (filter (fun line => negb (String.eqb (trim line) "")) (split_nl text))
    as [|l ls] eqn:El; [reflexivity|].
  rewrite split_nl_join.
  - rewrite length_mapi_from. simpl. lia.
  - discriminate.
  - apply analyzeText_lines_no_nl.
Qed.

(** ** Export *)

Lemma double_quotes_app : forall a b, double_quotes (a ++ b) = double_quotes a ++ double_quotes b.
Proof.
  induction a as [|c a IH]; intros b; simpl; [reflexivity|].
  destruct (Ascii.eqb c dquote); simpl; rewrite IH; reflexivity.
Qed.

Lemma read_quoted_body_double : forall s d rest,
  d <> dquote ->
  read_quoted_body (list_ascii_of_string (double_quotes s) ++ dquote :: d :: rest)%list =
  Some (list_ascii_of_string s, d :: rest).
Proof.
  intros s d rest Hd. induction s as [|c s IH]; simpl.
  - change (Ascii.eqb dquote dquote) with true.
    destruct (Ascii.eqb_spec d dquote); [contradiction|reflexivity].
  - destruct (Ascii.eqb_spec c dquote) as [->|Hc]; simpl.
    + change (Ascii.eqb dquote dquote) with true. rewrite IH. reflexivity.
    + destruct (Ascii.eqb_spec c dquote); [contradiction|]. rewrite IH. reflexivity.
Qed.

(** The preview cells of [convertToCSV] are well quoted: a CSV reader
    gets back the first 100 characters of the field (quotes included)
    followed by three dots, and the separator after the cell. *)
Theorem csv_preview_roundtrip : forall x rest,
  read_quoted (list_ascii_of_string (csv_preview x) ++ ","%char :: rest)%list =
  Some (list_ascii_of_string (substring_to 100 (str_or x "") ++ "..."), ","%char :: rest).
Proof.
  intros x rest. unfold csv_preview.
  replace (double_quotes (substring_to 100 (str_or x "")) ++ "..." ++ quote)
    with (double_quotes (substring_to 100 (str_or x "") ++ "...") ++ quote)
    by (rewrite double_quotes_app, str_app_assoc; reflexivity).
  generalize (substring_to 100 (str_or x "") ++ "...") as p. intros p.
  unfold quote. change (String dquote "" ++ (double_quotes p ++ String dquote ""))
    with (String dquote (double_quotes p ++ String dquote "")).
  cbn [list_ascii_of_string]. rewrite list_ascii_app. cbn [list_ascii_of_string].
  rewrite <- app_comm_cons, <- app_assoc. cbn [app]. unfold read_quoted.
  change (Ascii.eqb dquote dquote) with true. cbn iota.
  apply read_quoted_body_double. discriminate.
Qed.

Lemma combine_app : forall {A B} (a c : list A) (b d : list B),
  List.length a = List.length b -> combine (a ++ c) (b ++ d) = (combine a b ++ combine c d)%list.
Proof.
  intros A B a; induction a as [|x a IH]; intros c b d H; destruct b as [|y b];
    simpl in *; try discriminate; [reflexivity|]. rewrite IH by lia. reflexivity.
Qed.

Lemma fold_text : forall (f : nat * ExportItem -> string) l acc,
  fold_left (fun text ii => text ++ f ii) l acc = acc ++ fold_right (fun ii s => f ii ++ s) "" l.
Proof.
  intros f l; induction l as [|ii l IH]; intros acc; simpl; [symmetry; apply append_empty_r|].
  rewrite IH, str_app_assoc. reflexivity.
Qed.

Lemma fold_right_blocks : forall items i,
  fold_right (fun ii s => text_block (fst ii) (snd ii) ++ s) ""
    (combine (seq i (List.length items)) items) =
  fold_right append "" (mapi_from text_block i items).
Proof.
  induction items as [|it items IH]; intros i; simpl; [reflexivity|]. rewrite IH. reflexivity.
Qed.

Lemma convertToText_blocks : forall items,
  convertToText (DArray items) =
  text_header ++ fold_right append "" (mapi_from text_block 0 items).
Proof.
  intros items. unfold convertToText.
  rewrite (fold_text (fun ii => text_block (fst ii) (snd ii))), fold_right_blocks. reflexivity.
Qed.

Lemma fold_right_append_app : forall a b,
  fold_right append "" (a ++ b)%list = fold_right append "" a ++ fold_right append "" b.
Proof.
  induction a as [|x a IH]; intros b; simpl; [reflexivity|]. rewrite IH. apply str_app_assoc.
Qed.

Lemma mapi_from_app : forall {A B} (f : nat -> A -> B) a b i,
  mapi_from f i (a ++ b)%list = (mapi_from f i a ++ mapi_from f (i + List.length a) b)%list.
Proof.
  intros A B f a; induction a as [|x a IH]; intros b i; simpl.
  - rewrite Nat.add_0_r. reflexivity.
  - rewrite IH. do 3 f_equal. lia.
Qed.

(** [convertToText] on a longer array extends the report of the first
    items: the blocks of the added items follow, numbered on from
    [FILE (n+1)] where [n] is the number of items already exported. *)
Theorem convertToText_app : forall l1 l2,
  convertToText (DArray (l1 ++ l2)) =
  convertToText (DArray l1) ++ fold_right append "" (mapi_from text_block (List.length l1) l2).
Proof.
  intros l1 l2. rewrite !convertToText_blocks, mapi_from_app, fold_right_append_app.
  cbn [Nat.add]. apply str_app_assoc.
Qed.

(** ** The vocabulary is read with a lower-case key *)

Lemma lower_char_not_upper : forall c,
  Nat.leb 65 (nat_of_ascii (lower_char c)) && Nat.leb (nat_of_ascii (lower_char c)) 90 = false.
Proof. intros [[] [] [] [] [] [] [] []]; reflexivity. Qed.

(** The entries [Ningizimu] and [Afrika] of [this.vocabulary] start with
    a capital letter, while the lookup key [word.toLowerCase()] never
    does: they are never matched, and no word gets its [ProperName] tag
    from the vocabulary. *)
Lemma vocabulary_propername_keys : forall k,
  In (k, "ProperName") (vocabulary zulu) -> k = "Ningizimu" \/ k = "Afrika".
Proof.
  intros k H. vm_compute in H.
  repeat destruct H as [H|H]; try contradiction; injection H; intros; subst; auto; discriminate.
Qed.

Theorem vocabulary_capitalized_unreachable : forall w,
  obj_get (vocabulary zulu) (toLowerCase w) <> Some "ProperName".
Proof.
  intros w H. apply obj_get_In, vocabulary_propername_keys in H.
  destruct w as [|c w]; [destruct H as [H|H]; discriminate H|].
  assert (Hc : lower_char c = "N"%char \/ lower_char c = "A"%char).
  { destruct H as [H|H]; simpl in H; injection H; auto. }
  pose proof (lower_char_not_upper c) as Hl.
  destruct Hc as [Hc|Hc]; rewrite Hc in Hl; discriminate Hl.
Qed.

(** ** Failed uploads *)



(** ** The filename cell of [convertToCSV] is not escaped *)

Lemma read_quoted_body_decode : forall n l b r,
  List.length l <= n -> read_quoted_body l = Some (b, r) ->
  l = (list_ascii_of_string (double_quotes (string_of_list_ascii b)) ++ dquote :: r)%list.
Proof.
  induction n as [|n IH]; intros l b r Hl H; destruct l as [|c l]; simpl in H; try discriminate.
  - simpl in Hl. lia.
  - simpl in Hl. destruct (Ascii.eqb_spec c dquote) as [->|Hc].
    + destruct l as [|d l].
      * injection H as <- <-. reflexivity.
      * destruct (Ascii.eqb_spec d dquote) as [->|Hd].
        -- destruct (read_quoted_body l) as [[b' r']|] eqn:E; [|discriminate].
           injection H as <- <-. simpl in Hl.
           rewrite (IH l b' r' ltac:(lia) E) at 1. simpl.
           change (Ascii.eqb dquote dquote) with true. reflexivity.
        -- injection H as <- <-. reflexivity.
    + destruct (read_quoted_body l) as [[b' r']|] eqn:E; [|discriminate].
      injection H as <- <-. rewrite (IH l b' r' ltac:(lia) E) at 1. simpl.
      destruct (Ascii.eqb_spec c dquote); [contradiction|reflexivity].
Qed.

Lemma count_dq_app : forall a b,
  List.length (filter (Ascii.eqb dquote) (a ++ b)) =
  List.length (filter (Ascii.eqb dquote) a) + List.length (filter (Ascii.eqb dquote) b).
Proof. intros a b. rewrite filter_app, length_app. reflexivity. Qed.

Lemma double_quotes_counts : forall s,
  List.length (filter (Ascii.eqb dquote) (list_ascii_of_string (double_quotes s))) =
  2 * List.length (filter (Ascii.eqb dquote) (list_ascii_of_string s)) /\
  List.length (list_ascii_of_string (double_quotes s)) =
  List.length (list_ascii_of_string s) + List.length (filter (Ascii.eqb dquote) (list_ascii_of_string s)).
Proof.
  induction s as [|c s [IH1 IH2]]; [split; reflexivity|]. cbn [double_quotes].
  destruct (Ascii.eqb_spec c dquote) as [->|Hc]; cbn [list_ascii_of_string filter].
  - change (Ascii.eqb dquote dquote) with true. cbn [List.length]. split; lia.
  - destruct (Ascii.eqb_spec dquote c); [subst; contradiction|]. cbn [List.length]. split; lia.
Qed.

Lemma count_le_length : forall (f : ascii -> bool) l, List.length (filter f l) <= List.length l.
Proof. intros f l; induction l as [|c l IH]; simpl; [lia|]. destruct (f c); simpl; lia. Qed.

(** A string with a double quote, written between quotes and followed by
    a separator, is not read back by a CSV reader. *)
Lemma quoted_unescaped_not_read : forall name tail rest,
  In dquote (list_ascii_of_string name) ->
  read_quoted_body (list_ascii_of_string name ++ dquote :: ","%char :: tail)%list <>
  Some (list_ascii_of_string name, rest).
Proof.
  intros name tail rest Hin H0.
  pose proof (read_quoted_body_decode _ _ _ _ (le_n _) H0) as H. clear H0.
  rewrite string_of_list_ascii_of_string in H.
  destruct (double_quotes_counts name) as [Hc Hl].
  assert (Hq : 1 <= List.length (filter (Ascii.eqb dquote) (list_ascii_of_string name))).
  { destruct (filter (Ascii.eqb dquote) (list_ascii_of_string name)) eqn:E; simpl; [|lia].
    exfalso. assert (Hf : In dquote (filter (Ascii.eqb dquote) (list_ascii_of_string name))).
    { apply filter_In. split; [exact Hin|]. change (Ascii.eqb dquote dquote) with true. reflexivity. }
    rewrite E in Hf. exact Hf. }
  replace (list_ascii_of_string name ++ dquote :: ","%char :: tail)%list
    with ((list_ascii_of_string name ++ [dquote; ","%char]) ++ tail)%list in H
    by (rewrite <- app_assoc; reflexivity).
  replace (list_ascii_of_string (double_quotes name) ++ dquote :: rest)%list
    with ((list_ascii_of_string (double_quotes name) ++ [dquote]) ++ rest)%list in H
    by (rewrite <- app_assoc; reflexivity).
  apply app_eq_app in H as [m [[H1 H2]|[H1 H2]]].
  - apply (f_equal (List.length (A := ascii))) in H1 as Hlen. rewrite !length_app in Hlen.
    simpl in Hlen. assert (m = []) by (destruct m; [reflexivity|simpl in Hlen; lia]). subst m.
    rewrite app_nil_r in H1.
    replace (list_ascii_of_string name ++ [dquote; ","%char])%list
      with ((list_ascii_of_string name ++ [dquote]) ++ [","%char])%list in H1
      by (rewrite <- app_assoc; reflexivity).
    apply app_inj_tail in H1 as [_ H1]. discriminate H1.
  - apply (f_equal (List.length (A := ascii))) in H1 as Hlen.
    apply (f_equal (fun l => List.length (filter (Ascii.eqb dquote) l))) in H1.
    rewrite !count_dq_app in H1. rewrite !length_app in Hlen. simpl in H1, Hlen.
    change (Ascii.eqb dquote dquote) with true in H1. simpl in H1.
    pose proof (count_le_length (Ascii.eqb dquote) m). lia.
Qed.

Lemma read_quoted_cell : forall name t rest,
  In dquote (list_ascii_of_string name) ->
  read_quoted (list_ascii_of_string ((quote ++ name ++ quote) ++ "," ++ t)) <>
  Some (list_ascii_of_string name, rest).
Proof.
  intros name t rest Hin. rewrite !list_ascii_app. unfold quote. cbn [list_ascii_of_string app].
  unfold read_quoted. change (Ascii.eqb dquote dquote) with true. cbn iota.
  rewrite <- app_assoc. cbn [app]. apply quoted_unescaped_not_read, Hin.
Qed.

(** The filename cell of [convertToCSV] is put between quotes without
    doubling the quotes inside it (only the two preview cells are
    escaped): a file name containing a double quote cannot be read back
    from the row. *)
Theorem csv_filename_unescaped : forall item rest,
  In dquote (list_ascii_of_string (str_or (i_filename item) "N/A")) ->
  read_quoted (list_ascii_of_string (csv_row item)) <>
  Some (list_ascii_of_string (str_or (i_filename item) "N/A"), rest).
Proof.
  intros item rest Hin. unfold csv_row. cbn [join]. apply read_quoted_cell, Hin.
Qed.

Lemma csv_filename_unescaped_witness :
  In dquote (list_ascii_of_string (str_or (i_filename
    (mkItem (Some ("say " ++ quote ++ "hi" ++ quote ++ ".txt")) (Some 12) (Some "text/plain")
           (Some "completed") (Some 1) (Some 1) (Some "hi") (Some "<LINE 1>hi") None)) "N/A")) /\
  read_quoted (list_ascii_of_string (csv_row
    (mkItem (Some ("say " ++ quote ++ "hi" ++ quote ++ ".txt")) (Some 12) (Some "text/plain")
           (Some "completed") (Some 1) (Some 1) (Some "hi") (Some "<LINE 1>hi") None))) <>
  Some (list_ascii_of_string (str_or (i_filename
    (mkItem (Some ("say " ++ quote ++ "hi" ++ quote ++ ".txt")) (Some 12) (Some "text/plain")
           (Some "completed") (Some 1) (Some 1) (Some "hi") (Some "<LINE 1>hi") None)) "N/A"), []).
Proof.
  assert (Hin : In dquote (list_ascii_of_string (str_or (i_filename
    (mkItem (Some ("say " ++ quote ++ "hi" ++ quote ++ ".txt")) (Some 12) (Some "text/plain")
           (Some "completed") (Some 1) (Some 1) (Some "hi") (Some "<LINE 1>hi") None)) "N/A"))).
  { change (str_or (i_filename
    (mkItem (Some ("say " ++ quote ++ "hi" ++ quote ++ ".txt")) (Some 12) (Some "text/plain")
           (Some "completed") (Some 1) (Some 1) (Some "hi") (Some "<LINE 1>hi") None)) "N/A")
      with ("say " ++ quote ++ "hi" ++ quote ++ ".txt").
    rewrite list_ascii_app. apply in_or_app. right. left. reflexivity. }
  split; [exact Hin|]. exact (csv_filename_unescaped _ [] Hin).
Defined.
